(** * A model of [base_utils.aws.s3_manager.S3Manager]

    Shallow embedding of the file-transfer methods of [S3Manager]
    ([src/base_utils/aws/s3_manager.py]): [upload_file], [download_file],
    [upload_files_batch] and the context manager [download_file_temp].

    - The local filesystem is a finite map from paths to the kind of node
      stored there.  A path is the list of its components, so that
      [os.path.join(d, n)] is [d ++ [n]] and [os.listdir(d)] lists the last
      components of the entries one level below [d].
    - Python exceptions are the values of [exn]; every one of them is a
      subclass of [Exception], so a bare [except Exception] catches them all.
    - The boto3 client, the operating system's refusal to delete a file, the
      name chosen by [tempfile] and the completion order of
      [concurrent.futures.as_completed] are oracles, given as section
      variables. *)

From stdpp Require Import base gmap list strings pretty.
From Stdlib Require Import Ascii.

(* ------------------------------------------------------------------ *)
(** ** Data model *)

Inductive kind := File | Dir.

#[global] Instance kind_eq_dec : EqDecision kind.
Proof. solve_decision. Defined.

Abbreviation path := (list string).
Abbreviation fsys := (gmap (list string) kind).

(** Errors of the [os] module, as their [errno]. *)
Inductive os_errno := ENOENT | EISDIR | EACCES.

(** Python exceptions raised along the modelled paths. *)
Inductive exn :=
| ClientError (msg : string)      (** [botocore.exceptions.ClientError] *)
| OSError (e : os_errno)          (** [OSError] and its subclasses *)
| OtherError (msg : string).      (** any other [Exception] subclass *)

(** A Python call either returns a value or raises. *)
Inductive outcome (A : Type) :=
| Ret (a : A)
| Raise (e : exn).
Arguments Ret {A} a.
Arguments Raise {A} e.

(** [isinstance(e, ClientError)] *)
Definition is_client_error (e : exn) : bool :=
  match e with ClientError _ => true | _ => false end.

(** [isinstance(e, OSError)] *)
Definition is_os_error (e : exn) : bool :=
  match e with OSError _ => true | _ => false end.

(* ------------------------------------------------------------------ *)
(** ** The local filesystem *)

(** [os.path.isdir], [os.path.isfile], [os.path.exists] *)
Definition isdir (fs : fsys) (p : path) : bool := bool_decide (fs !! p = Some Dir).
Definition isfile (fs : fsys) (p : path) : bool := bool_decide (fs !! p = Some File).
Definition path_exists (fs : fsys) (p : path) : bool := bool_decide (is_Some (fs !! p)).

(** [os.path.join(d, n)] for a plain file name [n]. *)
Definition path_join (d : path) (n : string) : path := d ++ [n].

(** The name of [p] inside directory [d], when [p] is directly below [d]. *)
Definition child_name (d p : path) : option string :=
  match rev p with
  | n :: rd => if decide (rev rd = d) then Some n else None
  | [] => None
  end.

(** [os.listdir(d)]: the names of the entries directly below [d]. *)
Definition listdir (fs : fsys) (d : path) : list string :=
  omap (child_name d) ((map_to_list fs).*1).

(** [os.remove(p)] (also [os.unlink(p)]).  [rm_fail p] says that the
    operating system refuses to delete the file at [p] (permissions, a file
    held open, ...). *)
Definition os_remove (rm_fail : path -> bool) (fs : fsys) (p : path) : outcome fsys :=
  match fs !! p with
  | Some File => if rm_fail p then Raise (OSError EACCES) else Ret (delete p fs)
  | Some Dir => Raise (OSError EISDIR)
  | None => Raise (OSError ENOENT)
  end.

(* ------------------------------------------------------------------ *)
(** ** Remote keys *)

(** [posixpath.join(a, b)] *)
Definition posix_join (a b : string) : string :=
  if String.prefix "/" b then b
  else if String.eqb a "" then b
  else if String.eqb (String.substring (String.length a - 1) 1 a) "/" then (a ++ b)%string
  else (a ++ "/" ++ b)%string.

(** [s.replace("\\", "/")] *)
Fixpoint replace_backslash (s : string) : string :=
  match s with
  | EmptyString => EmptyString
  | String c s' =>
      String (if Ascii.eqb c (ascii_of_nat 92) then "/"%char else c)
             (replace_backslash s')
  end.

(** One upload: the pair [(local, s3)] of the source. *)
Record task := mk_task { t_local : path; t_remote : string }.

(** The files of the batch: [(os.path.join(source_dir, fname),
    os.path.join(dest_dir, fname).replace("\\", "/"))] for every [fname] of
    [os.listdir(source_dir)] such that the joined local path is a file. *)
Definition collect_files (fs : fsys) (source_dir : path) (dest_dir : string) : list task :=
  (fun fname => mk_task (path_join source_dir fname)
                        (replace_backslash (posix_join dest_dir fname)))
    <$> (filter (fun fname => isfile fs (path_join source_dir fname) = true)
              (listdir fs source_dir)).

(** What the batch does, in order: submissions to the executor, outcomes
    appended to [results], and the deletion attempts with their log line. *)
Inductive event :=
| EvSubmit (t : task)                  (** [executor.submit(self.upload_file, ...)] *)
| EvRecord (t : task) (ok : bool)      (** [results.append(ok)] while handling [t] *)
| EvDeleted (p : path)                 (** [os.remove(local)] returned *)
| EvDeleteFailed (p : path) (e : exn). (** [os.remove(local)] raised [OSError] *)

(** The state threaded through the [as_completed] loop. *)
Record bstate := mk_bstate {
  bs_fs : fsys;
  bs_results : list bool;
  bs_trace : list event
}.

Definition record (st : bstate) (t : task) (ok : bool) : bstate :=
  mk_bstate (bs_fs st) (bs_results st ++ [ok]) (bs_trace st ++ [EvRecord t ok]).

Definition log_event (st : bstate) (ev : event) : bstate :=
  mk_bstate (bs_fs st) (bs_results st) (bs_trace st ++ [ev]).

(** The outcomes recorded in a trace, in order, with their task. *)
Definition recorded (tr : list event) : list (task * bool) :=
  omap (fun ev => match ev with EvRecord t ok => Some (t, ok) | _ => None end) tr.

Section S3Manager.

(** [self.s3.upload_file(source_file_path, bucket, dest_file_path)]:
    [None] when it returns, [Some e] when it raises [e]. *)
Variable s3_upload_file : path -> string -> string -> option exn.
(** [self.s3.download_file(bucket, source_file_path, dest_file_path)] *)
Variable s3_download_file : string -> string -> path -> option exn.
(** Whether the operating system refuses [os.remove]/[os.unlink] of a file. *)
Variable rm_fail : path -> bool.
(** The order in which [concurrent.futures.as_completed] yields the futures
    of the submitted tasks, for a pool of [max_workers] threads. *)
Variable as_completed : Z -> list task -> list task.
(** [tempfile.NamedTemporaryFile(delete=False).name], or the exception it
    raises. *)
Variable mk_temp : fsys -> outcome path.

(** [S3Manager.upload_file] *)
Definition upload_file (bucket : string) (source_file_path : path)
    (dest_file_path : string) : outcome bool :=
  match s3_upload_file source_file_path bucket dest_file_path with
  | None => Ret true                        (* logger.success; return True *)
  | Some e =>
      if is_client_error e then Ret false   (* except ClientError: return False *)
      else Raise e                          (* not caught *)
  end.

(** [S3Manager.download_file] *)
Definition download_file (bucket : string) (source_file_path : string)
    (dest_file_path : path) : outcome bool :=
  match s3_download_file bucket source_file_path dest_file_path with
  | None => Ret true
  | Some e => if is_client_error e then Ret false else Raise e
  end.

(** The value [future.result()] gives for task [t], or [False] when it
    raises: what the loop appends to [results] for [t]. *)
Definition result_value (bucket : string) (t : task) : bool :=
  match upload_file bucket (t_local t) (t_remote t) with
  | Ret b => b
  | Raise _ => false
  end.

(** The body of the [for future in as_completed(...)] loop, for the future
    of task [t]; [future.result()] is the outcome of [upload_file] on it. *)
Definition handle_completed (bucket : string) (delete_after : bool)
    (st : bstate) (t : task) : bstate :=
  match upload_file bucket (t_local t) (t_remote t) with
  | Raise _ => record st t false              (* except Exception *)
  | Ret success =>
      let st1 := record st t success in       (* results.append(success) *)
      if success then
        if delete_after then
          match os_remove rm_fail (bs_fs st1) (t_local t) with
          | Ret fs' => log_event (mk_bstate fs' (bs_results st1) (bs_trace st1))
                                 (EvDeleted (t_local t))
          | Raise e =>
              if is_os_error e then log_event st1 (EvDeleteFailed (t_local t) e)
              else record st1 t false         (* escapes to except Exception *)
          end
        else st1
      else st1                                (* logger.error *)
  end.

(** [S3Manager.upload_files_batch]: the returned value (or the exception
    raised) and the final state. *)
Definition upload_files_batch (fs : fsys) (bucket : string) (source_dir : path)
    (dest_dir : string) (max_workers : Z) (delete_after : bool)
    : outcome bool * bstate :=
  if negb (isdir fs source_dir) then (Ret false, mk_bstate fs [] [])
  else
    let files := collect_files fs source_dir dest_dir in
    match files with
    | [] => (Ret false, mk_bstate fs [] [])
    | _ =>
        (* ThreadPoolExecutor(max_workers) raises ValueError when max_workers <= 0 *)
        if bool_decide (max_workers <= 0)%Z
        then (Raise (OtherError "max_workers must be greater than 0"), mk_bstate fs [] [])
        else
          let st0 := mk_bstate fs [] (EvSubmit <$> files) in
          let st := foldl (handle_completed bucket delete_after) st0
                          (as_completed max_workers files) in
          (Ret (forallb id (bs_results st)), st)
    end.

(** The [try] block of [download_file_temp], up to the point where the
    generator finishes or an exception leaves the [try]: the filesystem, the
    value of [temp_path] and the pending exception.  [body] is the caller's
    [with] block, run at the [yield]; an exception it raises is thrown into
    the generator there.  [except ClientError: raise] re-raises the same
    exception, so every pending exception is the original one. *)
Definition download_temp_try (fs : fsys) (bucket source_file_path : string)
    (body : path -> fsys -> fsys * option exn)
    : fsys * option path * option exn :=
  match mk_temp fs with
  | Raise e => (fs, None, Some e)
  | Ret t =>
      let fs1 := <[t := File]> fs in
      match s3_download_file bucket source_file_path t with
      | Some e => (fs1, Some t, Some e)
      | None => let '(fs2, r) := body t fs1 in (fs2, Some t, r)
      end
  end.

(** The [finally] block: [if temp_path and os.path.exists(temp_path):
    os.unlink(temp_path)].  The empty path [[]] is the empty string, the
    only path string Python treats as false. *)
Definition download_temp_finally (fs : fsys) (temp_path : option path) : outcome fsys :=
  match temp_path with
  | Some t =>
      if negb (bool_decide (t = [])) && path_exists fs t
      then os_remove rm_fail fs t
      else Ret fs
  | None => Ret fs
  end.

(** [with S3Manager.download_file_temp(bucket, source_file_path) as p:
    body(p)]: the filesystem after the [with] statement, and whether it
    completes or raises.  An exception raised in [finally] replaces the
    pending one. *)
Definition download_file_temp (fs : fsys) (bucket source_file_path : string)
    (body : path -> fsys -> fsys * option exn) : fsys * outcome unit :=
  let '(fs1, temp_path, pending) := download_temp_try fs bucket source_file_path body in
  match download_temp_finally fs1 temp_path with
  | Raise e => (fs1, Raise e)
  | Ret fs2 =>
      (fs2, match pending with Some e => Raise e | None => Ret tt end)
  end.

End S3Manager.

(** The local path an event of the batch deletes or tries to delete. *)
Definition deletion_path (ev : event) : option path :=
  match ev with
  | EvDeleted p => Some p
  | EvDeleteFailed p _ => Some p
  | _ => None
  end.

(** Whether character [c] occurs in [s] ([c in s]). *)
Fixpoint has_char (c : ascii) (s : string) : bool :=
  match s with
  | EmptyString => false
  | String d s' => Ascii.eqb c d || has_char c s'
  end.

(* ================================================================== *)
(** * A model of [base_utils.pandas.helpers]

    The helpers of [src/base_utils/pandas/helpers.py] that only rearrange
    columns ([index_slice], [collapse_multi_index_cols], [keep_levels]) and
    [_safe_replace_year].  A DataFrame is seen through its columns: the
    column labels, the names of the column levels, and for each column its
    data, a value of an arbitrary type [C] that the helpers carry along
    untouched.  [detrend_df] (a least-squares fit) and [create_seasonal_df]
    (a pivot table) are not modelled. *)

(** The exceptions raised along the modelled paths of the pandas helpers;
    their messages are not modelled. *)
Inductive perr := KeyError | ValueError | TypeError | OverflowError.

#[global] Instance perr_eq_dec : EqDecision perr.
Proof. solve_decision. Defined.

(** A value, or the exception raised computing it. *)
Inductive pres (A : Type) := POk (a : A) | PErr (e : perr).
Arguments POk {A} a.
Arguments PErr {A} e.

(** A column label component: a Python [str] or [int]. *)
Inductive pyval := PStr (s : string) | PInt (z : Z).

#[global] Instance pyval_eq_dec : EqDecision pyval.
Proof. solve_decision. Defined.

(** [str(v)] *)
Definition py_str (v : pyval) : string :=
  match v with
  | PStr s => s
  | PInt z => pretty z
  end.

(** A DataFrame, by its columns: with a [MultiIndex] on the columns, the
    level names [df.columns.names] and, for each column, its label tuple and
    its data; with a flat [Index], the index name and, for each column, its
    label and its data. *)
Inductive frame (C : Type) :=
| MultiFrame (names : list (option string)) (cols : list (list pyval * C))
| FlatFrame (name : option string) (cols : list (pyval * C)).
Arguments MultiFrame {C} names cols.
Arguments FlatFrame {C} name cols.

(** [pd.DataFrame()] *)
Definition empty_frame {C} : frame C := FlatFrame None [].

(** [MultiIndex._get_level_number(level)] for a level given by name: a name
    that occurs more than once raises [ValueError], a missing one
    [KeyError]. *)
Definition get_level_number (names : list (option string)) (level : option string)
    : pres nat :=
  if bool_decide (1 < length (filter (fun n => n = level) names)) then PErr ValueError
  else match list_find (fun n => n = level) names with
       | Some (i, _) => POk i
       | None => PErr KeyError
       end.

(** [df.xs(value, level=level, axis=1, drop_level=False)]: the columns whose
    label has [value] at [level], in their order; [KeyError] when there is
    none, [TypeError] when the columns are not a [MultiIndex]. *)
Definition xs {C} (df : frame C) (value : pyval) (level : string) : pres (frame C) :=
  match df with
  | FlatFrame _ _ => PErr TypeError
  | MultiFrame names cols =>
      match get_level_number names (Some level) with
      | PErr e => PErr e
      | POk i =>
          let sel := filter (fun c => c.1 !! i = Some value) cols in
          if bool_decide (sel = []) then PErr KeyError else POk (MultiFrame names sel)
      end
  end.

(** A keyword argument of [index_slice]: a single value, or a list or tuple
    of values. *)
Inductive kwval := KwOne (v : pyval) | KwMany (vs : list pyval).

(** [if not isinstance(values, (list, tuple)): values = [values]] *)
Definition kw_values (k : kwval) : list pyval :=
  match k with
  | KwOne v => [v]
  | KwMany vs => vs
  end.

(** The inner loop of [index_slice]: the slices found for [values], in
    order; a [KeyError] of [xs] is caught and logged, any other exception
    propagates. *)
Fixpoint collect_slices {C} (df : frame C) (level : string) (values : list pyval)
    : pres (list (frame C)) :=
  match values with
  | [] => POk []
  | v :: vs =>
      match xs df v level with
      | POk s =>
          match collect_slices df level vs with
          | POk ss => POk (s :: ss)
          | PErr e => PErr e
          end
      | PErr KeyError => collect_slices df level vs
      | PErr e => PErr e
      end
  end.

(** The columns of a frame with a [MultiIndex]. *)
Definition multi_cols {C} (df : frame C) : list (list pyval * C) :=
  match df with
  | MultiFrame _ cols => cols
  | FlatFrame _ _ => []
  end.

(** [pd.concat(slices, axis=1)] for the slices [index_slice] concatenates:
    slices of one frame with a [MultiIndex], which share its level names; the
    columns follow one another in the order of the slices. *)
Definition concat_axis1 {C} (slices : list (frame C)) : frame C :=
  match slices with
  | MultiFrame names _ :: _ => MultiFrame names (mjoin (multi_cols <$> slices))
  | _ => empty_frame
  end.

(** The outer loop of [index_slice], over the keyword arguments in order. *)
Fixpoint index_slice_loop {C} (filter_df : frame C) (kwargs : list (string * kwval))
    : pres (frame C) :=
  match kwargs with
  | [] => POk filter_df
  | (level, values) :: rest =>
      match collect_slices filter_df level (kw_values values) with
      | PErr e => PErr e
      | POk [] => POk empty_frame          (* no slices: pd.DataFrame() *)
      | POk slices => index_slice_loop (concat_axis1 slices) rest
      end
  end.

(** [index_slice(df, **kwargs)], with [kwargs] in the order they are given. *)
Definition index_slice {C} (df : frame C) (kwargs : list (string * kwval)) : pres (frame C) :=
  index_slice_loop df kwargs.

(** [join_str.join(parts)] *)
Fixpoint py_join (sep : string) (parts : list string) : string :=
  match parts with
  | [] => ""
  | [x] => x
  | x :: xs => (x ++ sep ++ py_join sep xs)%string
  end.

(** [collapse_multi_index_cols(df, join_str)]: the frame after
    [df.columns = [join_str.join(map(str, col)) for col in df.columns]] (a
    flat index with no name); [df] itself is returned, so the caller's frame
    is the one changed. *)
Definition collapse_multi_index_cols {C} (df : frame C) (join_str : string) : frame C :=
  match df with
  | MultiFrame _ cols =>
      FlatFrame None ((fun c => (PStr (py_join join_str (py_str <$> c.1)), c.2)) <$> cols)
  | FlatFrame _ _ => df
  end.

(** [list(map(f, l))] with [f] raising: the first exception raised. *)
Fixpoint pres_map {A B} (f : A -> pres B) (l : list A) : pres (list B) :=
  match l with
  | [] => POk []
  | x :: l' =>
      match f x with
      | PErr e => PErr e
      | POk y => match pres_map f l' with PErr e => PErr e | POk ys => POk (y :: ys) end
      end
  end.

(** The elements of [l] at the positions [pos], in the order of [pos]. *)
Definition take_positions {A} (pos : list nat) (l : list A) : list A :=
  omap (fun i => l !! i) pos.

(** [df.columns.droplevel(to_drop)] applied to the columns with
    [set_axis]: the level numbers of [to_drop] ([ValueError] for a name that
    occurs more than once), [ValueError] when no level would be left, and a
    flat index, named after the remaining level, when one level is left. *)
Definition droplevel {C} (names : list (option string)) (cols : list (list pyval * C))
    (to_drop : list (option string)) : pres (frame C) :=
  match pres_map (get_level_number names) to_drop with
  | PErr e => PErr e
  | POk levnums =>
      if bool_decide (length names <= length levnums) then PErr ValueError
      else
        let kept := filter (fun i => i ∉ levnums) (seq 0 (length names)) in
        POk match kept with
        | [i] =>
            FlatFrame (default None (names !! i))
              (omap (fun c => (fun v => (v, c.2)) <$> (c.1 !! i)) cols)
        | _ =>
            MultiFrame (take_positions kept names)
              ((fun c => (take_positions kept c.1, c.2)) <$> cols)
            end
  end.

(** The argument [levels_to_keep]: a single name, or a list of names ([None]
    stands for an unnamed level). *)
Inductive levels_arg := LevelOne (s : string) | LevelMany (ls : list (option string)).

(** [keep_levels(df, levels_to_keep)] *)
Definition keep_levels {C} (df : frame C) (levels_to_keep : levels_arg) : pres (frame C) :=
  match df with
  | FlatFrame _ _ => PErr ValueError
  | MultiFrame column_levels cols =>
      let keep := match levels_to_keep with
                  | LevelOne s => [Some s]
                  | LevelMany ls => ls
                  end in
      let invalid_levels := filter (fun l => l ∉ column_levels) keep in
      if bool_decide (invalid_levels <> []) then PErr ValueError
      else droplevel column_levels cols (filter (fun l => l ∉ keep) column_levels)
  end.

Section Dates.
Local Open Scope Z_scope.

(** A [datetime.datetime], by its date. *)
Record date := mk_date { year : Z; month : Z; day : Z }.

(** [calendar.isleap] *)
Definition is_leap (y : Z) : bool :=
  (y mod 4 =? 0) && (negb (y mod 100 =? 0) || (y mod 400 =? 0)).

(** The number of days of month [m] of year [y]. *)
Definition days_in_month (y m : Z) : Z :=
  if (m =? 2)%Z then (if is_leap y then 29 else 28)
  else if (m =? 4) || (m =? 6) || (m =? 9) || (m =? 11) then 30
  else 31.

(** The checks of the [datetime] constructor: [MINYEAR <= year <= MAXYEAR],
    [1 <= month <= 12] and [1 <= day <= days in that month]. *)
Definition valid_date (d : date) : bool :=
  (1 <=? year d) && (year d <=? 9999) && (1 <=? month d) && (month d <=? 12)
  && (1 <=? day d) && (day d <=? days_in_month (year d) (month d)).

(** [date.replace(year=new_year)]: the argument is converted to a C [int]
    first, which raises [OverflowError] outside [-2^31 .. 2^31 - 1]; then
    [ValueError] when the date does not exist. *)
Definition date_replace_year (d : date) (new_year : Z) : pres date :=
  if (new_year <? - 2 ^ 31) || (2 ^ 31 - 1 <? new_year) then PErr OverflowError
  else
    let d' := mk_date new_year (month d) (day d) in
    if valid_date d' then POk d' else PErr ValueError.

(** [_safe_replace_year(date, new_year)]: [None] when [replace] raises
    [ValueError]; any other exception propagates. *)
Definition _safe_replace_year (d : date) (new_year : Z) : pres (option date) :=
  match date_replace_year d new_year with
  | POk d' => POk (Some d')
  | PErr ValueError => POk None
  | PErr e => PErr e
  end.

End Dates.

(* ================================================================== *)
(** * A model of [base_utils.plotting.timeseries.plot_timeseries]

    The traces and the vertical lines of the figure.  Dates of the data span
    are only seen through the months of its first and last day. *)

Section Plotting.
Local Open Scope Z_scope.

(** The argument [add_monthly_v_line]: [None], an [int], a [bool] (an [int]
    subclass), a list, tuple or set of months, or any other object, with its
    truth value. *)
Inductive vline_arg :=
| VNone
| VInt (m : Z)
| VBool (b : bool)
| VSeq (months : list Z)
| VOther (truthy : bool).

(** [bool(add_monthly_v_line)] *)
Definition vline_truthy (a : vline_arg) : bool :=
  match a with
  | VNone => false
  | VInt m => negb (m =? 0)
  | VBool b => b
  | VSeq ms => negb (bool_decide (ms = []))
  | VOther t => t
  end.

(** [list(range(a, b))] *)
Definition py_range (a b : Z) : list Z :=
  (fun n => a + Z.of_nat n) <$> seq 0 (Z.to_nat (b - a)).

(** [v_lines]: the months that get a line. *)
Definition v_lines (a : vline_arg) : list Z :=
  match a with
  | VInt m => py_range m 13
  | VBool b => py_range (if b then 1 else 0) 13
  | VSeq ms => ms
  | _ => py_range 1 13
  end.

(** [pd.date_range(first, last, freq="MS")] for the first days of the
    months [(y0, m0)] and [(y1, m1)]: the first day of every month from the
    one to the other, as (year, month). *)
Definition month_starts (y0 m0 y1 m1 : Z) : list (Z * Z) :=
  (fun i => (i `div` 12, i `mod` 12 + 1)) <$> py_range (12 * y0 + (m0 - 1)) (12 * y1 + m1).

(** A vertical line of the figure. *)
Inductive vline := MonthLine (y m : Z) | TodayLine.

(** The vertical lines [plot_timeseries] adds, in order, for data whose
    first and last days fall in the months [(y0, m0)] and [(y1, m1)]. *)
Definition plot_vlines (add_monthly_v_line : vline_arg) (add_vline_today : bool)
    (y0 m0 y1 m1 : Z) : list vline :=
  (if vline_truthy add_monthly_v_line
   then (fun ym => MonthLine ym.1 ym.2)
          <$> filter (fun ym => ym.2 ∈ v_lines add_monthly_v_line) (month_starts y0 m0 y1 m1)
   else [])
  ++ (if add_vline_today then [TodayLine] else []).

(** The argument [bold_series]: a single name, or a list of names. *)
Inductive bold_arg := BoldOne (s : string) | BoldMany (ls : list string).

(** A trace of the figure: its name, its y axis, and whether it is drawn
    bold ([width=4, color="black"]) rather than thin ([width=1]). *)
Record trace := mk_trace { tr_name : string; tr_yaxis : string; tr_bold : bool }.

(** The traces of [plot_timeseries], one per column of [df.columns]. *)
Definition plot_traces (columns : list string) (bold_series : bold_arg)
    (secondary_y_axis_cols : list string) : list trace :=
  let bold := match bold_series with BoldOne s => [s] | BoldMany ls => ls end in
  (fun col => mk_trace col
       (if bool_decide (col ∈ secondary_y_axis_cols) then "y2" else "y")
       (bool_decide (col ∈ bold))) <$> columns.

End Plotting.

(* ------------------------------------------------------------------ *)
(** ** Sample inputs *)

Module Samples.

(** [src/] holds [a.txt], [b.txt] and a subdirectory [sub]. *)
Definition fs0 : fsys :=
  <[["src"] := Dir]> (<[["src"; "a.txt"] := File]>
    (<[["src"; "b.txt"] := File]> (<[["src"; "sub"] := Dir]> ∅))).

(** [src/] holds only a subdirectory. *)
Definition fs_subdir_only : fsys :=
  <[["src"] := Dir]> (<[["src"; "sub"] := Dir]> ∅).

(** [src/] holds the single file [a.txt]. *)
Definition fs_one : fsys :=
  <[["src"] := Dir]> (<[["src"; "a.txt"] := File]> ∅).

Definition task_a : task := mk_task ["src"; "a.txt"] "out/a.txt".
Definition task_b : task := mk_task ["src"; "b.txt"] "out/b.txt".

(** The client uploads everything but [b.txt], for which it raises an
    exception that is not a [ClientError]. *)
Definition up_b_raises (p : path) (_ _ : string) : option exn :=
  if bool_decide (p = ["src"; "b.txt"]) then Some (OtherError "S3UploadFailedError")
  else None.

(** The client uploads everything but [b.txt], refused with a [ClientError]. *)
Definition up_b_refused (p : path) (_ _ : string) : option exn :=
  if bool_decide (p = ["src"; "b.txt"]) then Some (ClientError "AccessDenied")
  else None.

Definition up_ok (_ : path) (_ _ : string) : option exn := None.

Definition rm_never (_ : path) : bool := false.
Definition rm_always (_ : path) : bool := true.

(** Futures complete in the reverse of their submission order. *)
Definition ac_rev (_ : Z) (l : list task) : list task := rev l.

Definition tmp0 : path := ["tmp"; "tmpk2x9"].
Definition mk_tmp0 (_ : fsys) : outcome path := Ret tmp0.

Definition dl_ok (_ _ : string) (_ : path) : option exn := None.
Definition dl_404 (_ _ : string) (_ : path) : option exn := Some (ClientError "404").

(** A [with] block that removes the temporary file itself. *)
Definition body_remove (t : path) (fs : fsys) : fsys * option exn := (delete t fs, None).
(** A [with] block that reads the file and returns. *)
Definition body_read (_ : path) (fs : fsys) : fsys * option exn := (fs, None).

(** Columns [country] / [field] / [year] of a frame with a [MultiIndex]. *)
Definition names0 : list (option string) := [Some "country"; Some "field"; Some "year"].
Definition cols0 : list (list pyval * nat) :=
  [([PStr "PT"; PStr "price"; PInt 2024], 0%nat);
   ([PStr "PT"; PStr "volume"; PInt 2024], 1%nat);
   ([PStr "ES"; PStr "price"; PInt 2023], 2%nat);
   ([PStr "FR"; PStr "volume"; PInt 2024], 3%nat)].
Definition df0 : frame nat := MultiFrame names0 cols0.

End Samples.

(* ================================================================== *)
(** ** Properties *)

Lemma os_remove_raise_os_error rm fs p e :
  os_remove rm fs p = Raise e -> is_os_error e = true.
Proof. unfold os_remove. repeat case_match; intros; simplify_eq; done. Qed.

Lemma os_remove_ret rm fs p fs' :
  os_remove rm fs p = Ret fs' -> fs' = delete p fs.
Proof. unfold os_remove. repeat case_match; intros; simplify_eq; done. Qed.

Lemma recorded_app l1 l2 : recorded (l1 ++ l2) = recorded l1 ++ recorded l2.
Proof. apply omap_app. Qed.

Lemma recorded_submits (ts : list task) : recorded (EvSubmit <$> ts) = [].
Proof. induction ts; done. Qed.

Lemma child_name_Some d p n : child_name d p = Some n -> p = path_join d n.
Proof.
  unfold child_name, path_join. destruct (rev p) as [|m rd] eqn:E; [done|].
  case_decide; intros; simplify_eq.
  rewrite <- (rev_involutive p), E. done.
Qed.

Lemma NoDup_omap_inj {A B} (f : A -> option B) (l : list A) :
  NoDup l -> (forall x y z, f x = Some z -> f y = Some z -> x = y) ->
  NoDup (omap f l).
Proof.
  intros Hl Hf. induction Hl as [|x l Hx Hl IH]; simpl; [constructor|].
  destruct (f x) as [z|] eqn:Ez; [|done].
  constructor; [|done].
  rewrite list_elem_of_omap. intros (y & Hy & Ey).
  assert (x = y) by eauto. subst. done.
Qed.

Lemma NoDup_listdir fs d : NoDup (listdir fs d).
Proof.
  apply NoDup_omap_inj; [apply NoDup_fst_map_to_list|].
  intros x y z Hx Hy. apply child_name_Some in Hx, Hy. by subst.
Qed.

Lemma NoDup_collect_files_local fs d dd :
  NoDup (t_local <$> collect_files fs d dd).
Proof.
  unfold collect_files. rewrite <- list_fmap_compose.
  apply NoDup_fmap_2_strong; [|apply NoDup_filter, NoDup_listdir].
  intros x y _ _. unfold compose, path_join; simpl.
  intros H. apply app_inv_head in H. by simplify_eq.
Qed.

Lemma filter_none_nil (P : string -> Prop) `{forall x, Decision (P x)} l :
  (forall x, x ∈ l -> ~ P x) -> filter P l = [].
Proof.
  induction l as [|x l IH]; intros Hn; [done|].
  rewrite filter_cons. rewrite decide_False by (apply Hn; set_solver).
  apply IH. set_solver.
Qed.

Section Proofs.

Variable s3_upload_file : path -> string -> string -> option exn.
Variable rm_fail : path -> bool.
Variable as_completed : Z -> list task -> list task.

Local Abbreviation handle := (handle_completed s3_upload_file rm_fail).
Local Abbreviation upload := (upload_file s3_upload_file).

(** One iteration appends exactly one value to [results], the one
    [result_value] gives. *)
Lemma handle_results bucket da st t :
  bs_results (handle bucket da st t)
  = bs_results st ++ [result_value s3_upload_file bucket t].
Proof.
  unfold handle_completed, result_value.
  destruct (upload bucket (t_local t) (t_remote t)) as [[|]|e]; simpl; try done.
  destruct da; [|done].
  destruct (os_remove _ _ _) as [fs'|e] eqn:E; [done|].
  apply os_remove_raise_os_error in E. by rewrite E.
Qed.

(** One iteration extends the trace by one record for [t] followed by
    events that record nothing. *)
Lemma handle_trace bucket da st t :
  exists evs, bs_trace (handle bucket da st t)
    = bs_trace st ++ EvRecord t (result_value s3_upload_file bucket t) :: evs
    /\ recorded evs = [].
Proof.
  unfold handle_completed, result_value.
  destruct (upload bucket (t_local t) (t_remote t)) as [[|]|e]; simpl;
    try (exists []; rewrite ?app_nil_r; done).
  destruct da; [|exists []; done].
  destruct (os_remove _ _ _) as [fs'|e] eqn:E; simpl.
  - exists [EvDeleted (t_local t)]. split; [|done].
    unfold log_event, record; simpl. by rewrite <- app_assoc.
  - apply os_remove_raise_os_error in E. rewrite E.
    exists [EvDeleteFailed (t_local t) e]. split; [|done].
    unfold log_event, record; simpl. by rewrite <- app_assoc.
Qed.

Lemma handle_recorded bucket da st t :
  recorded (bs_trace (handle bucket da st t))
  = recorded (bs_trace st) ++ [(t, result_value s3_upload_file bucket t)].
Proof.
  destruct (handle_trace bucket da st t) as (evs & -> & Hevs).
  rewrite recorded_app. simpl. by rewrite Hevs.
Qed.

Lemma fold_results bucket da l st :
  bs_results (foldl (handle bucket da) st l)
  = bs_results st ++ (result_value s3_upload_file bucket <$> l).
Proof.
  revert st. induction l as [|t l IH]; intros st; simpl.
  - by rewrite app_nil_r.
  - rewrite IH, handle_results. by rewrite <- app_assoc.
Qed.

Lemma fold_recorded bucket da l st :
  recorded (bs_trace (foldl (handle bucket da) st l))
  = recorded (bs_trace st) ++ ((fun t => (t, result_value s3_upload_file bucket t)) <$> l).
Proof.
  revert st. induction l as [|t l IH]; intros st; simpl.
  - by rewrite app_nil_r.
  - rewrite IH, handle_recorded. by rewrite <- app_assoc.
Qed.

Lemma fold_trace_app bucket da l st :
  exists post, bs_trace (foldl (handle bucket da) st l) = bs_trace st ++ post.
Proof.
  revert st. induction l as [|t l IH]; intros st; simpl.
  - exists []. by rewrite app_nil_r.
  - destruct (IH (handle bucket da st t)) as [post ->].
    destruct (handle_trace bucket da st t) as (evs & -> & _).
    eexists. by rewrite <- app_assoc.
Qed.

(** One iteration touches the filesystem only at [t_local t], and only to
    delete it. *)
Lemma handle_fs bucket da st t :
  bs_fs (handle bucket da st t) = bs_fs st
  \/ bs_fs (handle bucket da st t) = delete (t_local t) (bs_fs st).
Proof.
  unfold handle_completed.
  destruct (upload bucket (t_local t) (t_remote t)) as [[|]|e]; simpl; auto.
  destruct da; [|auto].
  destruct (os_remove _ _ _) as [fs'|e] eqn:E; simpl.
  - apply os_remove_ret in E. subst. auto.
  - destruct (is_os_error e); auto.
Qed.

Lemma handle_fs_no_delete bucket st t :
  bs_fs (handle bucket false st t) = bs_fs st.
Proof.
  unfold handle_completed.
  destruct (upload bucket (t_local t) (t_remote t)) as [[|]|e]; done.
Qed.

Lemma handle_fs_failed bucket da st t :
  upload bucket (t_local t) (t_remote t) <> Ret true ->
  bs_fs (handle bucket da st t) = bs_fs st.
Proof.
  unfold handle_completed.
  destruct (upload bucket (t_local t) (t_remote t)) as [[|]|e]; done.
Qed.

Lemma handle_fs_deleted bucket st t :
  upload bucket (t_local t) (t_remote t) = Ret true ->
  rm_fail (t_local t) = false ->
  bs_fs st !! t_local t <> Some Dir ->
  bs_fs (handle bucket true st t) !! t_local t = None.
Proof.
  intros Hup Hrm Hdir. unfold handle_completed. rewrite Hup. simpl.
  unfold os_remove. simpl.
  destruct (bs_fs st !! t_local t) as [[]|] eqn:E; try done.
  - rewrite Hrm. simpl. by rewrite lookup_delete_eq.
Qed.

Lemma fold_fs_shrink bucket da l st p :
  bs_fs (foldl (handle bucket da) st l) !! p = bs_fs st !! p
  \/ bs_fs (foldl (handle bucket da) st l) !! p = None.
Proof.
  revert st. induction l as [|t l IH]; intros st; simpl; [auto|].
  destruct (IH (handle bucket da st t)) as [-> | ->]; [|auto].
  destruct (handle_fs bucket da st t) as [-> | ->]; [auto|].
  destruct (decide (p = t_local t)) as [->|Hne].
  - rewrite lookup_delete_eq. auto.
  - rewrite lookup_delete_ne by congruence. auto.
Qed.

Lemma fold_fs_none bucket da l st p :
  bs_fs st !! p = None -> bs_fs (foldl (handle bucket da) st l) !! p = None.
Proof. intros H. by destruct (fold_fs_shrink bucket da l st p) as [-> | ->]. Qed.

Lemma fold_fs_other bucket da l st p :
  p ∉ t_local <$> l ->
  bs_fs (foldl (handle bucket da) st l) !! p = bs_fs st !! p.
Proof.
  revert st. induction l as [|t l IH]; intros st Hp; simpl; [done|].
  rewrite fmap_cons, elem_of_cons in Hp.
  rewrite IH by tauto.
  destruct (handle_fs bucket da st t) as [-> | ->]; [done|].
  rewrite lookup_delete_ne; [done|]. intros Heq. apply Hp. left. done.
Qed.

Lemma fold_fs_no_delete bucket l st :
  bs_fs (foldl (handle bucket false) st l) = bs_fs st.
Proof.
  revert st. induction l as [|t l IH]; intros st; simpl; [done|].
  by rewrite IH, handle_fs_no_delete.
Qed.

(** The batch, once it has reached the loop. *)
Lemma upload_files_batch_loop fs bucket source_dir dest_dir max_workers da :
  isdir fs source_dir = true ->
  collect_files fs source_dir dest_dir <> [] ->
  (1 <= max_workers)%Z ->
  let files := collect_files fs source_dir dest_dir in
  let st := foldl (handle bucket da) (mk_bstate fs [] (EvSubmit <$> files))
                  (as_completed max_workers files) in
  upload_files_batch s3_upload_file rm_fail as_completed fs bucket source_dir
    dest_dir max_workers da = (Ret (forallb id (bs_results st)), st).
Proof.
  intros Hd Hf Hw files st. unfold upload_files_batch. rewrite Hd. simpl.
  fold files. destruct files as [|t ts] eqn:E; [done|].
  rewrite bool_decide_false by lia. done.
Qed.

(** C1: with [N >= 1] files and [max_workers >= 1], the batch records
    exactly one outcome per discovered file, whatever each upload does
    (returns [True], returns [False] or raises), and returns normally. *)
Theorem upload_files_batch_one_outcome_per_file fs bucket source_dir dest_dir
    max_workers delete_after :
  isdir fs source_dir = true ->
  collect_files fs source_dir dest_dir <> [] ->
  (1 <= max_workers)%Z ->
  as_completed max_workers (collect_files fs source_dir dest_dir)
    ≡ₚ collect_files fs source_dir dest_dir ->
  let '(r, st) := upload_files_batch s3_upload_file rm_fail as_completed fs bucket
                    source_dir dest_dir max_workers delete_after in
  r = Ret (forallb id (bs_results st))
  /\ length (bs_results st) = length (collect_files fs source_dir dest_dir)
  /\ (recorded (bs_trace st)).*1 ≡ₚ collect_files fs source_dir dest_dir.
Proof.
  intros Hd Hf Hw Hperm.
  rewrite (upload_files_batch_loop fs bucket source_dir dest_dir max_workers
             delete_after Hd Hf Hw).
  split; [done|]. split.
  - rewrite fold_results. simpl. rewrite length_fmap.
    by apply Permutation_length.
  - rewrite fold_recorded. simpl. rewrite recorded_submits. simpl.
    rewrite <- list_fmap_compose. unfold compose. simpl.
    rewrite list_fmap_id. done.
Qed.

(** C7: when [source_dir] is not an existing directory the batch returns
    [False] at once: no task submitted, no outcome, no exception. *)
Theorem upload_files_batch_missing_dir fs bucket source_dir dest_dir
    max_workers delete_after :
  isdir fs source_dir = false ->
  upload_files_batch s3_upload_file rm_fail as_completed fs bucket source_dir
    dest_dir max_workers delete_after = (Ret false, mk_bstate fs [] []).
Proof. intros H. unfold upload_files_batch. by rewrite H. Qed.

(** C8: when [source_dir] exists but none of its entries is a regular file
    (subdirectories do not count), the batch returns [False] with no task
    submitted and no outcome. *)
Theorem upload_files_batch_no_files fs bucket source_dir dest_dir
    max_workers delete_after :
  isdir fs source_dir = true ->
  (forall fname, fname ∈ listdir fs source_dir ->
                 isfile fs (path_join source_dir fname) = false) ->
  upload_files_batch s3_upload_file rm_fail as_completed fs bucket source_dir
    dest_dir max_workers delete_after = (Ret false, mk_bstate fs [] []).
Proof.
  intros Hd Hnf. unfold upload_files_batch. rewrite Hd. simpl.
  unfold collect_files. rewrite filter_none_nil; [done|].
  intros x Hx. rewrite Hnf by done. done.
Qed.

(** C9: with [delete_after = False] the batch leaves the local filesystem
    as it found it, on every path. *)
Theorem upload_files_batch_keeps_files fs bucket source_dir dest_dir max_workers :
  bs_fs (snd (upload_files_batch s3_upload_file rm_fail as_completed fs bucket
                source_dir dest_dir max_workers false)) = fs.
Proof.
  unfold upload_files_batch.
  destruct (isdir fs source_dir); simpl; [|done].
  destruct (collect_files fs source_dir dest_dir) as [|t ts]; [done|].
  case_bool_decide; [done|]. simpl. by rewrite fold_fs_no_delete.
Qed.

End Proofs.

Lemma collect_files_isfile fs d dd t :
  t ∈ collect_files fs d dd -> fs !! t_local t = Some File.
Proof.
  unfold collect_files. rewrite list_elem_of_fmap.
  intros (n & -> & Hn). apply list_elem_of_filter in Hn as [Hf _].
  unfold isfile in Hf. simpl. by apply bool_decide_eq_true in Hf.
Qed.

Section Deletion.

Variable s3_upload_file : path -> string -> string -> option exn.
Variable rm_fail : path -> bool.
Variable as_completed : Z -> list task -> list task.

Local Abbreviation handle := (handle_completed s3_upload_file rm_fail).
Local Abbreviation upload := (upload_file s3_upload_file).

Lemma handle_success_trace bucket st t :
  upload bucket (t_local t) (t_remote t) = Ret true ->
  exists ev, bs_trace (handle bucket true st t) = bs_trace st ++ [EvRecord t true; ev]
    /\ (ev = EvDeleted (t_local t) \/ exists e, ev = EvDeleteFailed (t_local t) e).
Proof.
  intros Hup. unfold handle_completed. rewrite Hup. simpl.
  destruct (os_remove _ _ _) as [fs'|e] eqn:E; simpl.
  - eexists. split; [by rewrite <- app_assoc|]. left. done.
  - pose proof (os_remove_raise_os_error _ _ _ _ E) as He. rewrite He. simpl.
    eexists. split; [by rewrite <- app_assoc|]. right. eauto.
Qed.

(** One iteration for a task whose upload returned [True], with
    [delete_after = True], when the operating system refuses to delete its
    file: the outcome is recorded, the [OSError] is logged, and the
    filesystem is left alone. *)
Lemma handle_delete_refused bucket st t :
  upload bucket (t_local t) (t_remote t) = Ret true ->
  rm_fail (t_local t) = true ->
  bs_fs st !! t_local t = Some File ->
  bs_fs (handle bucket true st t) = bs_fs st
  /\ bs_trace (handle bucket true st t)
     = bs_trace st ++ [EvRecord t true; EvDeleteFailed (t_local t) (OSError EACCES)].
Proof.
  intros Hup Hrm Hf. unfold handle_completed. rewrite Hup. simpl.
  unfold os_remove. simpl. rewrite Hf, Hrm. simpl.
  split; [done|]. by rewrite <- app_assoc.
Qed.

(** C5 (as the code does it): with [delete_after = True], the local file
    of every task whose upload returned [True] is gone after the batch when
    the operating system lets [os.remove] delete it; when [os.remove] raises
    for it, the [OSError] is logged and the file stays.  The local file of
    every task whose upload returned [False] or raised is still there. *)
Theorem upload_files_batch_delete_after fs bucket source_dir dest_dir max_workers :
  isdir fs source_dir = true ->
  (1 <= max_workers)%Z ->
  as_completed max_workers (collect_files fs source_dir dest_dir)
    ≡ₚ collect_files fs source_dir dest_dir ->
  forall t, t ∈ collect_files fs source_dir dest_dir ->
  let st := snd (upload_files_batch s3_upload_file rm_fail as_completed fs bucket
                   source_dir dest_dir max_workers true) in
  (upload bucket (t_local t) (t_remote t) = Ret true ->
   rm_fail (t_local t) = false -> bs_fs st !! t_local t = None)
  /\ (upload bucket (t_local t) (t_remote t) <> Ret true ->
      bs_fs st !! t_local t = Some File)
  /\ (upload bucket (t_local t) (t_remote t) = Ret true ->
      rm_fail (t_local t) = true ->
      bs_fs st !! t_local t = Some File
      /\ EvDeleteFailed (t_local t) (OSError EACCES) ∈ bs_trace st).
Proof.
  intros Hd Hw Hperm t Ht st.
  assert (Hne : collect_files fs source_dir dest_dir <> []).
  { intros E. rewrite E in Ht. set_solver. }
  unfold st. rewrite (upload_files_batch_loop s3_upload_file rm_fail as_completed
                        fs bucket source_dir dest_dir max_workers true Hd Hne Hw).
  simpl. set (files := collect_files fs source_dir dest_dir) in *.
  set (st0 := mk_bstate fs [] (EvSubmit <$> files)).
  assert (Hin : t ∈ as_completed max_workers files) by (rewrite Hperm; done).
  assert (Hnd : NoDup (t_local <$> as_completed max_workers files)).
  { rewrite Hperm. apply NoDup_collect_files_local. }
  apply list_elem_of_split in Hin as (l1 & l2 & Hsplit).
  rewrite Hsplit, fmap_app, fmap_cons in Hnd.
  apply NoDup_app in Hnd as (Hnd1 & Hdisj & Hnd2).
  apply NoDup_cons in Hnd2 as [Hn2 _].
  assert (Hn1 : t_local t ∉ t_local <$> l1).
  { intros Hin1. apply (Hdisj _ Hin1). set_solver. }
  rewrite Hsplit, foldl_app. simpl.
  pose proof (collect_files_isfile fs source_dir dest_dir t Ht) as Hfile.
  assert (Hf1 : bs_fs (foldl (handle bucket true) st0 l1) !! t_local t = Some File)
    by (rewrite fold_fs_other by done; done).
  split; [|split].
  - intros Hup Hrm. apply fold_fs_none, handle_fs_deleted; [done|done|].
    by rewrite Hf1.
  - intros Hup.
    rewrite fold_fs_other by done.
    rewrite handle_fs_failed by done. done.
  - intros Hup Hrm.
    destruct (handle_delete_refused bucket _ t Hup Hrm Hf1) as [Hfs Htr].
    rewrite fold_fs_other by done. rewrite Hfs. split; [done|].
    destruct (fold_trace_app s3_upload_file rm_fail bucket true l2
                (handle bucket true (foldl (handle bucket true) st0 l1) t)) as [post ->].
    rewrite Htr. set_solver.
Qed.

(** C2 (as the code does it): for a task whose upload returned [True] with
    [delete_after = True], the trace holds the append of its outcome
    immediately followed by the attempt to delete its local file: the
    outcome is recorded first, and the file is dealt with before the next
    completed task is handled. *)
Theorem upload_files_batch_record_then_delete fs bucket source_dir dest_dir
    max_workers :
  isdir fs source_dir = true ->
  (1 <= max_workers)%Z ->
  as_completed max_workers (collect_files fs source_dir dest_dir)
    ≡ₚ collect_files fs source_dir dest_dir ->
  forall t, t ∈ collect_files fs source_dir dest_dir ->
  upload bucket (t_local t) (t_remote t) = Ret true ->
  exists pre ev post,
    bs_trace (snd (upload_files_batch s3_upload_file rm_fail as_completed fs bucket
                     source_dir dest_dir max_workers true))
      = pre ++ [EvRecord t true; ev] ++ post
    /\ (ev = EvDeleted (t_local t) \/ exists e, ev = EvDeleteFailed (t_local t) e).
Proof.
  intros Hd Hw Hperm t Ht Hup.
  assert (Hne : collect_files fs source_dir dest_dir <> []).
  { intros E. rewrite E in Ht. set_solver. }
  rewrite (upload_files_batch_loop s3_upload_file rm_fail as_completed
             fs bucket source_dir dest_dir max_workers true Hd Hne Hw).
  simpl. set (files := collect_files fs source_dir dest_dir) in *.
  assert (Hin : t ∈ as_completed max_workers files) by (rewrite Hperm; done).
  apply list_elem_of_split in Hin as (l1 & l2 & ->).
  rewrite foldl_app. simpl.
  set (st1 := foldl (handle bucket true) _ l1).
  destruct (handle_success_trace bucket st1 t Hup) as (ev & Htr & Hev).
  destruct (fold_trace_app s3_upload_file rm_fail bucket true l2
              (handle bucket true st1 t)) as [post Hpost].
  exists (bs_trace st1), ev, post. split; [|done].
  rewrite Hpost, Htr. by rewrite <- app_assoc.
Qed.

End Deletion.

(** C6: whether [os.remove] succeeds or fails on the uploaded files changes
    neither the value returned by the batch (nor turns it into an
    exception), nor the outcome recorded for any task, nor [results]. *)
Theorem upload_files_batch_delete_failure_harmless s3_upload_file as_completed
    (rm_fail1 rm_fail2 : path -> bool) fs bucket source_dir dest_dir max_workers
    delete_after :
  let run rm := upload_files_batch s3_upload_file rm as_completed fs bucket
                   source_dir dest_dir max_workers delete_after in
  fst (run rm_fail1) = fst (run rm_fail2)
  /\ recorded (bs_trace (snd (run rm_fail1))) = recorded (bs_trace (snd (run rm_fail2)))
  /\ bs_results (snd (run rm_fail1)) = bs_results (snd (run rm_fail2)).
Proof.
  intros run. unfold run, upload_files_batch.
  destruct (isdir fs source_dir); simpl; [|done].
  destruct (collect_files fs source_dir dest_dir) as [|t ts]; [done|].
  case_bool_decide; [done|]. simpl.
  rewrite !fold_results, !fold_recorded. done.
Qed.

Section TempDownload.

Variable s3_download_file : string -> string -> path -> option exn.
Variable rm_fail : path -> bool.
Variable mk_temp : fsys -> outcome path.

(** C4 (as the code does it): once [tempfile] has created the temporary
    file [t], and provided the operating system lets [os.unlink] delete it,
    no file is left at [t] after the [with] statement, whatever the download
    and the caller's block do; when the download raises [e], the statement
    raises that same [e] and only after the file has been deleted.  When the
    [os.unlink] of [finally] raises (the operating system refuses, or the
    block left a directory there), its [OSError] is what the statement
    raises, in place of any pending exception, and the filesystem stays as
    it was at the exit of the [try], the node at [t] included.  [fs_exit] is
    that filesystem: the one after the download when it failed, the one the
    caller's block left otherwise. *)
Theorem download_file_temp_cleanup fs bucket source_file_path body t :
  mk_temp fs = Ret t ->
  t <> [] ->
  let fs_exit := match s3_download_file bucket source_file_path t with
                 | Some _ => <[t:=File]> fs
                 | None => fst (body t (<[t:=File]> fs))
                 end in
  let '(fs', r) := download_file_temp s3_download_file rm_fail mk_temp fs bucket
                     source_file_path body in
  (rm_fail t = false ->
   fs' !! t <> Some File
   /\ (forall e, s3_download_file bucket source_file_path t = Some e ->
                 r = Raise e /\ fs' !! t = None))
  /\ (forall e, path_exists fs_exit t = true -> os_remove rm_fail fs_exit t = Raise e ->
                r = Raise e /\ is_os_error e = true /\ fs' = fs_exit).
Proof.
  intros Hmk Ht fs_exit.
  unfold download_file_temp, download_temp_try. rewrite Hmk.
  unfold fs_exit. clear fs_exit.
  destruct (s3_download_file bucket source_file_path t) as [e0|] eqn:Edl.
  - unfold download_temp_finally.
    rewrite bool_decide_false by done. simpl.
    assert (Hex : path_exists (<[t:=File]> fs) t = true).
    { unfold path_exists. rewrite lookup_insert_eq. by apply bool_decide_true. }
    assert (Hrmv : os_remove rm_fail (<[t:=File]> fs) t
                   = if rm_fail t then Raise (OSError EACCES)
                     else Ret (delete t (<[t:=File]> fs)))
      by (unfold os_remove; by rewrite lookup_insert_eq).
    rewrite Hex, Hrmv. simpl.
    destruct (rm_fail t) eqn:Hrm; simpl.
    + split; [done|]. intros e _ Hr. simplify_eq. done.
    + split.
      * intros _. rewrite lookup_delete_eq. split; [done|].
        intros e He. by simplify_eq.
      * intros e _ Hr. done.
  - destruct (body t (<[t:=File]> fs)) as [fs2 r0] eqn:Eb. simpl.
    unfold download_temp_finally.
    rewrite bool_decide_false by done. simpl.
    destruct (path_exists fs2 t) eqn:Hex; simpl.
    + destruct (os_remove rm_fail fs2 t) as [fs3|e'] eqn:Erm; simpl.
      * apply os_remove_ret in Erm. subst fs3. split.
        -- intros _. rewrite lookup_delete_eq. split; [done|]. intros e He. done.
        -- intros e _ He. done.
      * split.
        -- intros Hrm. split; [|intros e He; done].
           unfold os_remove in Erm. intros Hf. rewrite Hf, Hrm in Erm. done.
        -- intros e _ He. rewrite He in Erm. simplify_eq.
           split; [done|]. split; [|done]. by eapply os_remove_raise_os_error.
    + split.
      * intros _. unfold path_exists in Hex. apply bool_decide_eq_false in Hex.
        split; [|intros e He; done].
        intros Hf. apply Hex. rewrite Hf. done.
      * intros e He. congruence.
Qed.

(** C10: the cleanup only deletes a file that still exists: when the
    caller's block has removed the temporary file, leaving the [with]
    statement raises nothing of its own; it completes when the block
    completed and re-raises the block's exception otherwise. *)
Theorem download_file_temp_already_removed fs bucket source_file_path body t fs2 r :
  mk_temp fs = Ret t ->
  s3_download_file bucket source_file_path t = None ->
  body t (<[t:=File]> fs) = (fs2, r) ->
  fs2 !! t = None ->
  download_file_temp s3_download_file rm_fail mk_temp fs bucket source_file_path body
  = (fs2, match r with Some e => Raise e | None => Ret tt end).
Proof.
  intros Hmk Hdl Hb Hgone.
  unfold download_file_temp, download_temp_try. rewrite Hmk, Hdl, Hb.
  unfold download_temp_finally, path_exists. rewrite Hgone.
  rewrite (bool_decide_false (is_Some None)) by apply is_Some_None.
  rewrite andb_false_r. done.
Qed.

End TempDownload.

(* ================================================================== *)
(** ** Runs on concrete inputs *)

Import Samples.

(** C2 fails as stated: a single successful upload with
    [delete_after = True]; its outcome is appended before its file is
    deleted. *)
Lemma upload_files_batch_records_before_delete :
  let st := snd (upload_files_batch up_ok rm_never ac_rev fs_one "bk" ["src"] "out"
                   2 true) in
  bs_trace st = [EvSubmit task_a; EvRecord task_a true; EvDeleted ["src"; "a.txt"]]
  /\ ~ (exists i j, bs_trace st !! i = Some (EvDeleted (t_local task_a))
                    /\ bs_trace st !! j = Some (EvRecord task_a true) /\ i < j).
Proof.
  intros st.
  assert (E : bs_trace st
              = [EvSubmit task_a; EvRecord task_a true; EvDeleted ["src"; "a.txt"]])
    by (vm_compute; reflexivity).
  split; [exact E|]. rewrite E. clear E st.
  intros (i & j & Hi & Hj & Hlt).
  destruct i as [|[|[|i]]]; destruct j as [|[|[|j]]]; simpl in *;
    try discriminate; lia.
Qed.

(** C3: boto3's managed [upload_file] turns a [ClientError] of the service
    into [S3UploadFailedError], which the [except ClientError] of
    [S3Manager.upload_file] does not catch: a rejected upload raises instead
    of returning [False].  Likewise an [OSError] of the local write leaves
    [download_file] as it came. *)
Lemma transfer_primitives_propagate :
  upload_file up_b_raises "bk" ["src"; "b.txt"] "out/b.txt"
    = Raise (OtherError "S3UploadFailedError")
  /\ download_file (fun _ _ _ => Some (OSError EACCES)) "bk" "out/b.txt" ["dst"; "b.txt"]
    = Raise (OSError EACCES).
Proof. split; vm_compute; reflexivity. Qed.

(** C4 fails as stated: the download raises [ClientError "404"] and the
    operating system refuses to delete the temporary file; the file stays
    and the caller sees the [OSError] of [os.unlink], not the original
    error. *)
Lemma download_file_temp_unlink_refused :
  let '(fs', r) := download_file_temp dl_404 rm_always mk_tmp0 ∅ "bk" "data.csv"
                     body_read in
  fs' !! tmp0 = Some File /\ r = Raise (OSError EACCES)
  /\ r <> Raise (ClientError "404").
Proof. vm_compute. split_and!; [reflexivity|reflexivity|discriminate]. Qed.

(** C5 fails as stated: the upload of [a.txt] succeeds with
    [delete_after = True] but [os.remove] raises; the batch reports success
    and the file is still there. *)
Lemma upload_files_batch_undeleted_success :
  let '(r, st) := upload_files_batch up_ok rm_always ac_rev fs_one "bk" ["src"] "out"
                    2 true in
  r = Ret true /\ recorded (bs_trace st) = [(task_a, true)]
  /\ bs_fs st !! ["src"; "a.txt"] = Some File.
Proof. vm_compute. split_and!; reflexivity. Qed.

(** Witnesses of the theorems with hypotheses. *)

Lemma upload_files_batch_one_outcome_per_file_witness :
  isdir fs0 ["src"] = true /\ collect_files fs0 ["src"] "out" <> []
  /\ (1 <= 2)%Z
  /\ ac_rev 2 (collect_files fs0 ["src"] "out") ≡ₚ collect_files fs0 ["src"] "out"
  /\ let '(r, st) := upload_files_batch up_b_raises rm_never ac_rev fs0 "bk" ["src"]
                       "out" 2 true in
     r = Ret (forallb id (bs_results st))
     /\ length (bs_results st) = length (collect_files fs0 ["src"] "out")
     /\ (recorded (bs_trace st)).*1 ≡ₚ collect_files fs0 ["src"] "out".
Proof.
  assert (Hp : ac_rev 2 (collect_files fs0 ["src"] "out") ≡ₚ collect_files fs0 ["src"] "out")
    by (unfold ac_rev; symmetry; apply Permutation_rev).
  split_and!; [vm_compute; reflexivity|vm_compute; discriminate|lia|exact Hp|].
  apply (upload_files_batch_one_outcome_per_file up_b_raises rm_never ac_rev fs0 "bk"
           ["src"] "out" 2 true);
    [vm_compute; reflexivity|vm_compute; discriminate|lia|exact Hp].
Defined.

Lemma upload_files_batch_missing_dir_witness :
  isdir fs0 ["nope"] = false
  /\ upload_files_batch up_ok rm_never ac_rev fs0 "bk" ["nope"] "out" 2 true
     = (Ret false, mk_bstate fs0 [] []).
Proof.
  split; [vm_compute; reflexivity|].
  apply (upload_files_batch_missing_dir up_ok rm_never ac_rev fs0 "bk" ["nope"] "out"
           2 true). vm_compute; reflexivity.
Defined.

Lemma upload_files_batch_no_files_witness :
  isdir fs_subdir_only ["src"] = true
  /\ listdir fs_subdir_only ["src"] = ["sub"]
  /\ upload_files_batch up_ok rm_never ac_rev fs_subdir_only "bk" ["src"] "out" 2 true
     = (Ret false, mk_bstate fs_subdir_only [] []).
Proof.
  assert (E : listdir fs_subdir_only ["src"] = ["sub"]) by (vm_compute; reflexivity).
  split_and!; [vm_compute; reflexivity|exact E|].
  apply (upload_files_batch_no_files up_ok rm_never ac_rev fs_subdir_only "bk" ["src"]
           "out" 2 true); [vm_compute; reflexivity|].
  intros n Hn. rewrite E in Hn. apply list_elem_of_singleton in Hn. subst n.
  vm_compute; reflexivity.
Defined.

Lemma upload_files_batch_delete_after_witness :
  task_a ∈ collect_files fs0 ["src"] "out" /\ task_b ∈ collect_files fs0 ["src"] "out"
  /\ upload_file up_b_refused "bk" (t_local task_a) (t_remote task_a) = Ret true
  /\ upload_file up_b_refused "bk" (t_local task_b) (t_remote task_b) = Ret false
  /\ bs_fs (snd (upload_files_batch up_b_refused rm_never ac_rev fs0 "bk" ["src"] "out"
                   2 true)) !! t_local task_a = None
  /\ bs_fs (snd (upload_files_batch up_b_refused rm_never ac_rev fs0 "bk" ["src"] "out"
                   2 true)) !! t_local task_b = Some File
  /\ task_a ∈ collect_files fs_one ["src"] "out"
  /\ bs_fs (snd (upload_files_batch up_ok rm_always ac_rev fs_one "bk" ["src"] "out"
                   2 true)) !! t_local task_a = Some File
  /\ EvDeleteFailed (t_local task_a) (OSError EACCES)
       ∈ bs_trace (snd (upload_files_batch up_ok rm_always ac_rev fs_one "bk" ["src"] "out"
                          2 true)).
Proof.
  assert (Hp : ac_rev 2 (collect_files fs0 ["src"] "out") ≡ₚ collect_files fs0 ["src"] "out")
    by (unfold ac_rev; symmetry; apply Permutation_rev).
  assert (Hp1 : ac_rev 2 (collect_files fs_one ["src"] "out")
                ≡ₚ collect_files fs_one ["src"] "out")
    by (unfold ac_rev; symmetry; apply Permutation_rev).
  assert (Ha : task_a ∈ collect_files fs0 ["src"] "out")
    by (apply list_elem_of_In; vm_compute; auto).
  assert (Hb : task_b ∈ collect_files fs0 ["src"] "out")
    by (apply list_elem_of_In; vm_compute; auto).
  assert (Ha1 : task_a ∈ collect_files fs_one ["src"] "out")
    by (apply list_elem_of_In; vm_compute; auto).
  assert (Ua : upload_file up_b_refused "bk" (t_local task_a) (t_remote task_a) = Ret true)
    by (vm_compute; reflexivity).
  assert (Ub : upload_file up_b_refused "bk" (t_local task_b) (t_remote task_b) = Ret false)
    by (vm_compute; reflexivity).
  destruct (upload_files_batch_delete_after up_b_refused rm_never ac_rev fs0 "bk" ["src"]
              "out" 2 ltac:(vm_compute; reflexivity) ltac:(lia) Hp task_a Ha)
    as (HA & _ & _).
  destruct (upload_files_batch_delete_after up_b_refused rm_never ac_rev fs0 "bk" ["src"]
              "out" 2 ltac:(vm_compute; reflexivity) ltac:(lia) Hp task_b Hb)
    as (_ & HB & _).
  destruct (upload_files_batch_delete_after up_ok rm_always ac_rev fs_one "bk" ["src"]
              "out" 2 ltac:(vm_compute; reflexivity) ltac:(lia) Hp1 task_a Ha1)
    as (_ & _ & HC).
  destruct (HC eq_refl eq_refl) as [HC1 HC2].
  split_and!; [exact Ha|exact Hb|exact Ua|exact Ub| | |exact Ha1|exact HC1|exact HC2].
  - exact (HA Ua eq_refl).
  - apply HB. rewrite Ub. discriminate.
Defined.

Lemma upload_files_batch_record_then_delete_witness :
  task_a ∈ collect_files fs0 ["src"] "out"
  /\ upload_file up_b_refused "bk" (t_local task_a) (t_remote task_a) = Ret true
  /\ exists pre ev post,
       bs_trace (snd (upload_files_batch up_b_refused rm_never ac_rev fs0 "bk" ["src"]
                        "out" 2 true))
         = pre ++ [EvRecord task_a true; ev] ++ post
       /\ (ev = EvDeleted (t_local task_a)
           \/ exists e, ev = EvDeleteFailed (t_local task_a) e).
Proof.
  assert (Hp : ac_rev 2 (collect_files fs0 ["src"] "out") ≡ₚ collect_files fs0 ["src"] "out")
    by (unfold ac_rev; symmetry; apply Permutation_rev).
  assert (Ha : task_a ∈ collect_files fs0 ["src"] "out")
    by (apply list_elem_of_In; vm_compute; auto).
  assert (Ua : upload_file up_b_refused "bk" (t_local task_a) (t_remote task_a) = Ret true)
    by (vm_compute; reflexivity).
  split_and!; [exact Ha|exact Ua|].
  exact (upload_files_batch_record_then_delete up_b_refused rm_never ac_rev fs0 "bk"
           ["src"] "out" 2 ltac:(vm_compute; reflexivity) ltac:(lia) Hp task_a Ha Ua).
Defined.

Lemma download_file_temp_cleanup_witness :
  mk_tmp0 ∅ = Ret tmp0 /\ tmp0 <> []
  /\ path_exists (<[tmp0 := File]> ∅) tmp0 = true
  /\ os_remove rm_always (<[tmp0 := File]> ∅) tmp0 = Raise (OSError EACCES)
  /\ download_file_temp dl_404 rm_always mk_tmp0 ∅ "bk" "data.csv" body_read
     = (<[tmp0 := File]> ∅, Raise (OSError EACCES))
  /\ (let '(fs', r) := download_file_temp dl_404 rm_never mk_tmp0 ∅ "bk" "data.csv"
                         body_read in
      r = Raise (ClientError "404") /\ fs' !! tmp0 = None).
Proof.
  assert (Hne : tmp0 <> []) by discriminate.
  assert (Hex : path_exists (<[tmp0 := File]> ∅) tmp0 = true) by (vm_compute; reflexivity).
  assert (Hrm : os_remove rm_always (<[tmp0 := File]> ∅) tmp0 = Raise (OSError EACCES))
    by (vm_compute; reflexivity).
  split_and!; [reflexivity|exact Hne|exact Hex|exact Hrm| |].
  - pose proof (download_file_temp_cleanup dl_404 rm_always mk_tmp0 ∅ "bk" "data.csv"
                  body_read tmp0 eq_refl Hne) as H.
    cbv zeta in H. simpl in H.
    destruct (download_file_temp dl_404 rm_always mk_tmp0 ∅ "bk" "data.csv" body_read)
      as [fs' r].
    destruct H as [_ H]. destruct (H _ Hex Hrm) as (-> & _ & ->). reflexivity.
  - pose proof (download_file_temp_cleanup dl_404 rm_never mk_tmp0 ∅ "bk" "data.csv"
                  body_read tmp0 eq_refl Hne) as H.
    cbv zeta in H.
    destruct (download_file_temp dl_404 rm_never mk_tmp0 ∅ "bk" "data.csv" body_read)
      as [fs' r].
    destruct H as [H _]. exact (proj2 (H eq_refl) _ eq_refl).
Defined.

Lemma download_file_temp_already_removed_witness :
  body_remove tmp0 (<[tmp0 := File]> ∅) = (delete tmp0 (<[tmp0 := File]> ∅), None)
  /\ (delete tmp0 (<[tmp0 := File]> ∅) : fsys) !! tmp0 = None
  /\ download_file_temp dl_ok rm_never mk_tmp0 ∅ "bk" "data.csv" body_remove
     = (delete tmp0 (<[tmp0 := File]> ∅), Ret tt).
Proof.
  assert (Hg : (delete tmp0 (<[tmp0 := File]> ∅) : fsys) !! tmp0 = None)
    by (vm_compute; reflexivity).
  split_and!; [reflexivity|exact Hg|].
  exact (download_file_temp_already_removed dl_ok rm_never mk_tmp0 ∅ "bk" "data.csv"
           body_remove tmp0 _ None eq_refl eq_refl eq_refl Hg).
Defined.

(* ================================================================== *)
(** ** Further properties of the manager *)

Lemma result_value_true s3_upload_file bucket t :
  result_value s3_upload_file bucket t = true
  <-> upload_file s3_upload_file bucket (t_local t) (t_remote t) = Ret true.
Proof.
  unfold result_value.
  destruct (upload_file s3_upload_file bucket (t_local t) (t_remote t)) as [[]|e];
    split; congruence.
Qed.

Lemma forallb_id_fmap {A} (f : A -> bool) (l : list A) :
  forallb id (f <$> l) = true <-> forall x, x ∈ l -> f x = true.
Proof.
  induction l as [|x l IH]; simpl.
  - split; [intros _ y Hy; set_solver|done].
  - rewrite andb_true_iff, IH. unfold id. split.
    + intros [Hx Hl] y Hy. apply elem_of_cons in Hy as [->|Hy]; auto.
    + intros H. split; [apply H; set_solver|intros y Hy; apply H; set_solver].
Qed.

Lemma replace_backslash_app a b :
  replace_backslash (a ++ b) = (replace_backslash a ++ replace_backslash b)%string.
Proof. induction a as [|c a IH]; simpl; [done|]. by rewrite IH. Qed.

Lemma replace_backslash_no_backslash s :
  has_char (ascii_of_nat 92) (replace_backslash s) = false.
Proof.
  induction s as [|c s IH]; [done|]. cbn [replace_backslash has_char].
  rewrite IH, orb_false_r.
  destruct (Ascii.eqb_spec c (ascii_of_nat 92)) as [->|Hc]; [done|].
  destruct (Ascii.eqb_spec (ascii_of_nat 92) c); congruence.
Qed.

Lemma replace_backslash_inj s1 s2 :
  has_char "/"%char s1 = false -> has_char "/"%char s2 = false ->
  replace_backslash s1 = replace_backslash s2 -> s1 = s2.
Proof.
  revert s2. induction s1 as [|c1 s1 IH]; intros [|c2 s2];
    cbn [replace_backslash has_char]; try done.
  rewrite !orb_false_iff. intros [H1 H1'] [H2 H2'] Heq. injection Heq as Hc Hs.
  f_equal; [|by apply IH].
  destruct (Ascii.eqb_spec c1 (ascii_of_nat 92)), (Ascii.eqb_spec c2 (ascii_of_nat 92));
    subst; done.
Qed.

Lemma prefix_slash_false b :
  has_char "/"%char b = false -> String.prefix "/" b = false.
Proof.
  destruct b as [|c b]; [done|]. cbn [has_char]. intros H.
  apply orb_false_iff in H as [Hc _]. cbn [String.prefix].
  destruct (Ascii.ascii_dec "/"%char c) as [<-|]; [|done].
  by rewrite Ascii.eqb_refl in Hc.
Qed.

Lemma posix_join_prefix (a : string) :
  exists pre, forall b, has_char "/"%char b = false -> posix_join a b = (pre ++ b)%string.
Proof.
  unfold posix_join.
  destruct (String.eqb a "").
  - exists "". intros b Hb. by rewrite prefix_slash_false.
  - destruct (String.eqb (String.substring (String.length a - 1) 1 a) "/").
    + exists a. intros b Hb. by rewrite prefix_slash_false.
    + exists (a ++ "/")%string. intros b Hb. rewrite prefix_slash_false by done.
      cbn iota. clear. induction a as [|c a IH]; [done|]. exact (f_equal (String c) IH).
Qed.

Section BatchExtra.

Variable s3_upload_file : path -> string -> string -> option exn.
Variable rm_fail : path -> bool.
Variable as_completed : Z -> list task -> list task.

Local Abbreviation handle := (handle_completed s3_upload_file rm_fail).
Local Abbreviation upload := (upload_file s3_upload_file).

Lemma upload_files_batch_bad_workers_aux fs bucket source_dir dest_dir max_workers
    delete_after :
  isdir fs source_dir = true ->
  collect_files fs source_dir dest_dir <> [] ->
  (max_workers <= 0)%Z ->
  upload_files_batch s3_upload_file rm_fail as_completed fs bucket source_dir dest_dir
    max_workers delete_after
  = (Raise (OtherError "max_workers must be greater than 0"), mk_bstate fs [] []).
Proof.
  intros Hd Hf Hw. unfold upload_files_batch. rewrite Hd. simpl.
  destruct (collect_files fs source_dir dest_dir); [done|].
  rewrite bool_decide_true by lia. done.
Qed.

(** [upload_files_batch] returns [True] exactly when the directory exists,
    holds at least one file, [max_workers] is positive and [upload_file]
    returned [True] for every file; a raised upload counts as a failure. *)
Theorem upload_files_batch_true_iff fs bucket source_dir dest_dir max_workers
    delete_after :
  as_completed max_workers (collect_files fs source_dir dest_dir)
    ≡ₚ collect_files fs source_dir dest_dir ->
  fst (upload_files_batch s3_upload_file rm_fail as_completed fs bucket source_dir
         dest_dir max_workers delete_after) = Ret true
  <-> isdir fs source_dir = true /\ collect_files fs source_dir dest_dir <> []
      /\ (1 <= max_workers)%Z
      /\ forall t, t ∈ collect_files fs source_dir dest_dir ->
                   upload bucket (t_local t) (t_remote t) = Ret true.
Proof.
  intros Hperm.
  destruct (isdir fs source_dir) eqn:Hd;
    [|unfold upload_files_batch; rewrite Hd; simpl; split; [discriminate|intros [? _]; done]].
  destruct (decide (collect_files fs source_dir dest_dir = [])) as [Hf|Hf].
  { unfold upload_files_batch. rewrite Hd, Hf. simpl. split; [discriminate|tauto]. }
  destruct (decide (1 <= max_workers)%Z) as [Hw|Hw].
  - rewrite (upload_files_batch_loop s3_upload_file rm_fail as_completed fs bucket
               source_dir dest_dir max_workers delete_after Hd Hf Hw).
    simpl. rewrite fold_results. simpl.
    split.
    + intros [= Hall]. split_and!; [done|done|done|].
      intros t Ht. apply result_value_true.
      apply (proj1 (forallb_id_fmap _ _) Hall). rewrite Hperm. done.
    + intros (_ & _ & _ & Hall). f_equal. apply forallb_id_fmap.
      intros t Ht. apply result_value_true, Hall. rewrite <- Hperm. done.
  - rewrite upload_files_batch_bad_workers_aux by (done || lia).
    simpl. split; [discriminate|lia].
Qed.

(** The batch changes the filesystem only at the local paths of the files
    it uploads: subdirectories and every other path are left as they were. *)
Theorem upload_files_batch_frame fs bucket source_dir dest_dir max_workers
    delete_after :
  as_completed max_workers (collect_files fs source_dir dest_dir)
    ≡ₚ collect_files fs source_dir dest_dir ->
  forall p, p ∉ (t_local <$> collect_files fs source_dir dest_dir) ->
  bs_fs (snd (upload_files_batch s3_upload_file rm_fail as_completed fs bucket
                source_dir dest_dir max_workers delete_after)) !! p = fs !! p.
Proof.
  intros Hperm p Hp.
  destruct (isdir fs source_dir) eqn:Hd;
    [|unfold upload_files_batch; rewrite Hd; done].
  destruct (decide (collect_files fs source_dir dest_dir = [])) as [Hf|Hf].
  { unfold upload_files_batch. rewrite Hd, Hf. done. }
  destruct (decide (1 <= max_workers)%Z) as [Hw|Hw];
    [|rewrite upload_files_batch_bad_workers_aux by (done || lia); done].
  rewrite (upload_files_batch_loop s3_upload_file rm_fail as_completed fs bucket
             source_dir dest_dir max_workers delete_after Hd Hf Hw).
  simpl. rewrite fold_fs_other; [done|]. rewrite Hperm. done.
Qed.

Lemma handle_deletion bucket da st t ev p :
  ev ∈ bs_trace (handle bucket da st t) -> deletion_path ev = Some p ->
  ev ∈ bs_trace st
  \/ (da = true /\ p = t_local t /\ upload bucket (t_local t) (t_remote t) = Ret true).
Proof.
  unfold handle_completed, record, log_event.
  repeat case_match; simpl; intros Hin Hp;
    rewrite ?elem_of_app, ?list_elem_of_singleton in Hin;
    repeat match goal with H : _ \/ _ |- _ => destruct H as [H|H] end;
    subst; simpl in *; simplify_eq; auto.
Qed.

Lemma fold_deletion bucket da l st ev p :
  ev ∈ bs_trace (foldl (handle bucket da) st l) -> deletion_path ev = Some p ->
  ev ∈ bs_trace st
  \/ (da = true /\ exists t, t ∈ l /\ p = t_local t
                            /\ upload bucket (t_local t) (t_remote t) = Ret true).
Proof.
  revert st. induction l as [|t l IH]; intros st Hin Hp; simpl in *; [auto|].
  destruct (IH _ Hin Hp) as [H|(Hda & t' & Ht' & Hp' & Hup)].
  - destruct (handle_deletion bucket da st t ev p H Hp) as [H'|(Hda & -> & Hup)]; auto.
    right. split; [done|]. exists t. split_and!; [set_solver|done|done].
  - right. split; [done|]. exists t'. split_and!; [set_solver|done|done].
Qed.

(** The batch deletes, or tries to delete, only the local file of a task
    whose upload returned [True], and only with [delete_after = True]. *)
Theorem upload_files_batch_deletes_only_uploaded fs bucket source_dir dest_dir
    max_workers delete_after :
  as_completed max_workers (collect_files fs source_dir dest_dir)
    ≡ₚ collect_files fs source_dir dest_dir ->
  forall ev p,
  ev ∈ bs_trace (snd (upload_files_batch s3_upload_file rm_fail as_completed fs bucket
                        source_dir dest_dir max_workers delete_after)) ->
  deletion_path ev = Some p ->
  delete_after = true
  /\ exists t, t ∈ collect_files fs source_dir dest_dir /\ p = t_local t
               /\ upload bucket (t_local t) (t_remote t) = Ret true.
Proof.
  intros Hperm ev p.
  destruct (isdir fs source_dir) eqn:Hd;
    [|unfold upload_files_batch; rewrite Hd; simpl; set_solver].
  destruct (decide (collect_files fs source_dir dest_dir = [])) as [Hf|Hf].
  { unfold upload_files_batch. rewrite Hd, Hf. simpl. set_solver. }
  destruct (decide (1 <= max_workers)%Z) as [Hw|Hw];
    [|rewrite upload_files_batch_bad_workers_aux by (done || lia); simpl; set_solver].
  rewrite (upload_files_batch_loop s3_upload_file rm_fail as_completed fs bucket
             source_dir dest_dir max_workers delete_after Hd Hf Hw).
  simpl. intros Hin Hp.
  destruct (fold_deletion _ _ _ _ _ _ Hin Hp) as [Hev|(Hda & t & Ht & -> & Hup)].
  - simpl in Hev. apply list_elem_of_fmap in Hev as (t & -> & _). done.
  - split; [done|]. exists t. split_and!; [|done|done].
    rewrite <- Hperm. done.
Qed.

End BatchExtra.

(** Every remote key of the batch is free of backslashes. *)
Theorem collect_files_remote_no_backslash fs source_dir dest_dir t :
  t ∈ collect_files fs source_dir dest_dir ->
  has_char (ascii_of_nat 92) (t_remote t) = false.
Proof.
  unfold collect_files. rewrite list_elem_of_fmap. intros (n & -> & _). simpl.
  apply replace_backslash_no_backslash.
Qed.

(** Two files of one batch never share a remote key, so no upload of the
    batch overwrites another, as long as the listed names contain no [/]
    (which a file name never does). *)
Theorem collect_files_remote_distinct fs source_dir dest_dir :
  (forall n, n ∈ listdir fs source_dir -> has_char "/"%char n = false) ->
  NoDup (t_remote <$> collect_files fs source_dir dest_dir).
Proof.
  intros Hn. unfold collect_files. rewrite <- list_fmap_compose.
  destruct (posix_join_prefix dest_dir) as [pre Hpre].
  apply NoDup_fmap_2_strong; [|apply NoDup_filter, NoDup_listdir].
  intros x y Hx Hy. unfold compose. simpl.
  apply list_elem_of_filter in Hx as [_ Hx], Hy as [_ Hy].
  rewrite (Hpre x (Hn x Hx)), (Hpre y (Hn y Hy)), !replace_backslash_app.
  intros H. apply (inj (String.append (replace_backslash pre))) in H.
  apply replace_backslash_inj; auto.
Qed.

Lemma download_temp_finally_frame rm_fail fs t fs' p :
  download_temp_finally rm_fail fs (Some t) = Ret fs' -> p <> t -> fs' !! p = fs !! p.
Proof.
  unfold download_temp_finally, os_remove. destruct (negb _ && _); [|by intros [= <-]].
  destruct (fs !! t) as [[]|]; [destruct (rm_fail t)|..]; intros H Hp; simplify_eq.
  by rewrite lookup_delete_ne by congruence.
Qed.

Section TempDownloadExtra.

Variable s3_download_file : string -> string -> path -> option exn.
Variable rm_fail : path -> bool.
Variable mk_temp : fsys -> outcome path.

(** The [with] statement changes the filesystem, away from the temporary
    file, only as the caller's block does: after a failed download nothing
    else has changed, after a successful one every other path is as the block
    left it. *)
Theorem download_file_temp_frame fs bucket source_file_path body t :
  mk_temp fs = Ret t ->
  forall p, p <> t ->
  fst (download_file_temp s3_download_file rm_fail mk_temp fs bucket source_file_path body)
    !! p
  = match s3_download_file bucket source_file_path t with
    | Some _ => fs !! p
    | None => fst (body t (<[t:=File]> fs)) !! p
    end.
Proof.
  intros Hmk p Hp. unfold download_file_temp, download_temp_try. rewrite Hmk.
  destruct (s3_download_file bucket source_file_path t) as [e|].
  - destruct (download_temp_finally _ _ _) as [fs'|e'] eqn:E; simpl;
      [erewrite download_temp_finally_frame by eassumption|];
      by rewrite lookup_insert_ne by congruence.
  - destruct (body t (<[t:=File]> fs)) as [fs2 r].
    destruct (download_temp_finally _ _ _) as [fs'|e'] eqn:E; simpl; [|done].
    by erewrite download_temp_finally_frame by eassumption.
Qed.

End TempDownloadExtra.

(* ================================================================== *)
(** ** Properties of the pandas helpers *)

Lemma filter_ext_in {A} (P1 P2 : A -> Prop) `{!forall x, Decision (P1 x)}
    `{!forall x, Decision (P2 x)} (l : list A) :
  (forall x, x ∈ l -> (P1 x <-> P2 x)) -> filter P1 l = filter P2 l.
Proof.
  induction l as [|a l IH]; intros Hiff; [done|]. rewrite !filter_cons.
  rewrite IH by (intros x Hx; apply Hiff; set_solver).
  destruct (decide (P1 a)), (decide (P2 a)); try done;
    exfalso; naive_solver (set_solver).
Qed.

Lemma filter_eq_length_le {A} `{EqDecision A} (l : list A) a :
  NoDup l -> length (filter (fun n => n = a) l) <= 1.
Proof.
  intros Hnd. pose proof (NoDup_filter (fun n => n = a) l Hnd) as Hf.
  assert (forall x, x ∈ filter (fun n => n = a) l -> x = a) as Ha.
  { intros x. rewrite list_elem_of_filter. tauto. }
  destruct (filter (fun n => n = a) l) as [|x [|y f]]; simpl; try lia.
  rewrite (Ha x), (Ha y) in Hf by set_solver. apply NoDup_cons in Hf. set_solver.
Qed.

Lemma get_level_number_nodup names i l :
  NoDup names -> names !! i = Some l -> get_level_number names l = POk i.
Proof.
  intros Hnd Hi. unfold get_level_number.
  rewrite bool_decide_false by (pose proof (filter_eq_length_le names l Hnd); lia).
  destruct (list_find (fun n => n = l) names) as [[j x]|] eqn:E.
  - apply list_find_Some in E as (Hj & -> & _). f_equal. eapply NoDup_lookup; eauto.
  - apply list_find_None in E. rewrite Forall_lookup in E. exfalso. by eapply E.
Qed.

Lemma filter_eq_length_once {A} `{EqDecision A} (l : list A) a i :
  l !! i = Some a -> (forall j, l !! j = Some a -> j = i) ->
  length (filter (fun n => n = a) l) = 1.
Proof.
  revert i. induction l as [|x l IH]; intros i Hi Huniq; [done|].
  rewrite filter_cons. destruct i as [|i]; simpl in Hi.
  - simplify_eq. rewrite decide_True by done. simpl.
    destruct (filter (fun n => n = a) l) as [|y f] eqn:E; [done|]. exfalso.
    assert (Hy : y ∈ filter (fun n => n = a) l) by (rewrite E; set_solver).
    apply list_elem_of_filter in Hy as [-> Hin].
    apply list_elem_of_lookup_1 in Hin as [j Hj].
    specialize (Huniq (S j) Hj). done.
  - rewrite decide_False.
    + apply (IH i Hi). intros j Hj. specialize (Huniq (S j) Hj). by injection Huniq.
    + intros ->. specialize (Huniq 0 eq_refl). done.
Qed.

(** The level number of a name that occurs once among the level names is
    its position, whatever the other names (unnamed levels included). *)
Lemma get_level_number_once names i l :
  names !! i = Some l -> (forall j, names !! j = Some l -> j = i) ->
  get_level_number names l = POk i.
Proof.
  intros Hi Huniq. unfold get_level_number.
  rewrite bool_decide_false by (rewrite (filter_eq_length_once names l i Hi Huniq); lia).
  destruct (list_find (fun n => n = l) names) as [[j x]|] eqn:E.
  - apply list_find_Some in E as (Hj & -> & _). f_equal. by apply Huniq.
  - apply list_find_None in E. rewrite Forall_lookup in E. exfalso. by eapply E.
Qed.

Lemma get_level_number_missing names l :
  l ∉ names -> get_level_number names l = PErr KeyError.
Proof.
  intros Hl. unfold get_level_number.
  assert (filter (fun n => n = l) names = []) as ->.
  { induction names as [|n names IH]; [done|]. rewrite filter_cons.
    case_decide; [subst; set_solver|]. apply IH. set_solver. }
  simpl. destruct (list_find _ names) as [[j x]|] eqn:E; [|done].
  apply list_find_Some in E as (Hj & -> & _). exfalso. apply Hl.
  by eapply list_elem_of_lookup_2.
Qed.

Lemma collect_slices_found {C} names (cols : list (list pyval * C)) level i vals :
  get_level_number names (Some level) = POk i ->
  collect_slices (MultiFrame names cols) level vals
  = POk (MultiFrame names <$>
           filter (fun s => s <> [])
             ((fun v => filter (fun c => c.1 !! i = Some v) cols) <$> vals)).
Proof.
  intros Hi. induction vals as [|v vals IH]; [done|].
  cbn [collect_slices]. unfold xs at 1. rewrite Hi.
  rewrite fmap_cons, filter_cons.
  case_bool_decide as Hs; rewrite IH.
  - rewrite decide_False by tauto. done.
  - rewrite decide_True by done. done.
Qed.

Lemma collect_slices_error {C} names (cols : list (list pyval * C)) level vals e :
  get_level_number names (Some level) = PErr e ->
  collect_slices (MultiFrame names cols) level vals
  = if bool_decide (vals = []) then POk []
    else if bool_decide (e = KeyError) then POk [] else PErr e.
Proof.
  intros He. induction vals as [|v vals IH]; [done|].
  cbn [collect_slices]. unfold xs at 1. rewrite He. rewrite IH.
  rewrite (bool_decide_false (v :: vals = [])) by done.
  destruct e; simpl; [|done..].
  destruct (bool_decide (vals = [])); done.
Qed.

Lemma mjoin_filter_nonempty {A} (ss : list (list A)) :
  mjoin (filter (fun s => s <> []) ss) = mjoin ss.
Proof.
  induction ss as [|s ss IH]; [done|]. rewrite filter_cons.
  case_decide as Hs; simpl; rewrite IH; [done|].
  destruct s; [done|]. first [discriminate | exfalso; apply Hs; discriminate].
Qed.

Lemma concat_axis1_multi {C} names (ss : list (list (list pyval * C))) :
  ss <> [] -> concat_axis1 (MultiFrame names <$> ss) = MultiFrame names (mjoin ss).
Proof.
  destruct ss as [|s ss]; [done|]. intros _. simpl. f_equal. f_equal.
  induction ss as [|s' ss IH]; simpl; [done|]. by rewrite IH.
Qed.

Lemma index_slice_loop_step {C} names (cols : list (list pyval * C)) level i vals rest :
  get_level_number names (Some level) = POk i ->
  index_slice_loop (MultiFrame names cols) ((level, vals) :: rest)
  = let sel := mjoin ((fun v => filter (fun c => c.1 !! i = Some v) cols) <$> kw_values vals) in
    if bool_decide (sel = []) then POk empty_frame
    else index_slice_loop (MultiFrame names sel) rest.
Proof.
  intros Hi. cbn [index_slice_loop]. rewrite (collect_slices_found _ _ _ _ _ Hi).
  simpl. rewrite <- (mjoin_filter_nonempty ((fun v => _) <$> kw_values vals)).
  destruct (filter (fun s => s <> []) _) as [|s ss] eqn:E; [done|].
  rewrite (bool_decide_false (mjoin (s :: ss) = [])).
  - change (MultiFrame names s :: (MultiFrame names <$> ss)) with (MultiFrame names <$> (s :: ss)).
    by rewrite concat_axis1_multi.
  - assert (s <> []) as Hs.
    { assert (s ∈ filter (fun s => s <> []) ((fun v => filter (fun c => c.1 !! i = Some v) cols)
                                               <$> kw_values vals)) as Hin
        by (rewrite E; set_solver).
      apply list_elem_of_filter in Hin. tauto. }
    destruct s; [done|]. done.
Qed.

(** [index_slice] on one level, named once in the frame's level names (the
    other names may repeat, as unnamed levels do): the result gathers, value
    after value, the columns with that value at the level, each group in the
    frame's order; a value with no column is skipped, and when no value has a
    column the result is [pd.DataFrame()]. *)
Theorem index_slice_one_level {C} names (cols : list (list pyval * C)) level i vals :
  names !! i = Some (Some level) ->
  (forall j, names !! j = Some (Some level) -> j = i) ->
  index_slice (MultiFrame names cols) [(level, vals)]
  = let sel := mjoin ((fun v => filter (fun c => c.1 !! i = Some v) cols) <$> kw_values vals) in
    POk (if bool_decide (sel = []) then empty_frame else MultiFrame names sel).
Proof.
  intros Hi Huniq. unfold index_slice.
  rewrite (index_slice_loop_step _ _ _ i) by (by apply get_level_number_once).
  simpl. by case_bool_decide.
Qed.

(** A level name the frame does not have makes [index_slice] return
    [pd.DataFrame()], whatever the values and the remaining keyword
    arguments: the [KeyError] of the level lookup is caught like a missing
    value. *)
Theorem index_slice_missing_level {C} names (cols : list (list pyval * C)) level vals rest :
  Some level ∉ names ->
  index_slice (MultiFrame names cols) ((level, vals) :: rest) = POk empty_frame.
Proof.
  intros Hl. unfold index_slice. cbn [index_slice_loop].
  rewrite (collect_slices_error _ _ _ _ KeyError) by (by apply get_level_number_missing).
  by case_bool_decide.
Qed.

(** Whatever the keyword arguments, a successful [index_slice] of a frame
    with a [MultiIndex] is [pd.DataFrame()] or keeps the level names and
    only has columns of the original frame, labels and data unchanged. *)
Theorem index_slice_subframe {C} names (cols : list (list pyval * C)) kwargs r :
  index_slice (MultiFrame names cols) kwargs = POk r ->
  r = empty_frame
  \/ exists cols', r = MultiFrame names cols' /\ forall c, c ∈ cols' -> c ∈ cols.
Proof.
  unfold index_slice. revert cols.
  induction kwargs as [|[level vals] rest IH]; intros cols Hr.
  - right. exists cols. simpl in Hr. by simplify_eq.
  - destruct (get_level_number names (Some level)) as [i|e] eqn:Hl.
    + rewrite (index_slice_loop_step _ _ _ i) in Hr by done. simpl in Hr.
      case_bool_decide; [left; by simplify_eq|].
      destruct (IH _ Hr) as [->|(cols' & -> & Hsub)]; [by left|].
      right. exists cols'. split; [done|]. intros c Hc.
      apply Hsub in Hc. apply list_elem_of_join in Hc as (s & Hc & Hs).
      apply list_elem_of_fmap in Hs as (v & -> & _).
      apply list_elem_of_filter in Hc. tauto.
    + cbn [index_slice_loop] in Hr. rewrite (collect_slices_error _ _ _ _ e) in Hr by done.
      destruct (bool_decide (kw_values vals = [])), (bool_decide (e = KeyError));
        simplify_eq; by left.
Qed.

(** Keyword arguments with one value each, at levels named once in the
    frame's level names (the other names may repeat): the result is the
    columns that have every value at its level, in the frame's order, or
    [pd.DataFrame()] when there is none. *)
Theorem index_slice_all_conditions {C} names (cols : list (list pyval * C))
    (conds : list (string * nat * pyval)) :
  conds <> [] ->
  Forall (fun cd => names !! cd.1.2 = Some (Some cd.1.1)
                    /\ forall j, names !! j = Some (Some cd.1.1) -> j = cd.1.2) conds ->
  let sel := filter (fun c => Forall (fun cd => c.1 !! cd.1.2 = Some cd.2) conds) cols in
  index_slice (MultiFrame names cols) ((fun cd => (cd.1.1, KwOne cd.2)) <$> conds)
  = POk (if bool_decide (sel = []) then empty_frame else MultiFrame names sel).
Proof.
  unfold index_slice. revert cols.
  induction conds as [|[[level i] v] conds IH]; intros cols Hne Hc; [done|].
  apply Forall_cons in Hc as [[Hi Huniq] Hc]. simpl in Hi, Huniq.
  rewrite fmap_cons. cbn [fst snd].
  rewrite (index_slice_loop_step _ _ _ i) by (by apply get_level_number_once).
  simpl. rewrite app_nil_r.
  assert (forall l : list (list pyval * C),
            filter (fun c => Forall (fun cd => c.1 !! cd.1.2 = Some cd.2)
                                    ((level, i, v) :: conds)) l
            = filter (fun c => Forall (fun cd => c.1 !! cd.1.2 = Some cd.2) conds)
                (filter (fun c => c.1 !! i = Some v) l)) as Hff.
  { intros l. rewrite list_filter_filter. apply list_filter_iff.
    intros c. rewrite Forall_cons. simpl. tauto. }
  rewrite Hff.
  destruct (decide (filter (fun c => c.1 !! i = Some v) cols = [])) as [E|E].
  - rewrite E. by rewrite !bool_decide_true.
  - rewrite (bool_decide_false (filter _ cols = [])) by done.
    destruct conds as [|cd conds'].
    + cbn [index_slice_loop fmap list_fmap].
      assert (forall l : list (list pyval * C),
                filter (fun c => Forall (fun cd => c.1 !! cd.1.2 = Some cd.2) []) l = l)
        as ->.
      { intros l. induction l as [|c l IHl]; [done|].
        rewrite filter_cons, decide_True by constructor. by rewrite IHl. }
      by rewrite bool_decide_false.
    + by apply IH.
Qed.

Lemma has_char_app c a b : has_char c (a ++ b) = has_char c a || has_char c b.
Proof. induction a as [|d a IH]; simpl; [done|]. by rewrite IH, orb_assoc. Qed.

Lemma app_sep_inj c x y r r' :
  has_char c x = false -> has_char c y = false ->
  (x ++ String c r)%string = (y ++ String c r')%string -> x = y /\ r = r'.
Proof.
  revert y. induction x as [|a x IH]; intros [|b y] Hx Hy; simpl.
  - intros [= ->]. done.
  - intros [= -> _]. simpl in Hy. by rewrite Ascii.eqb_refl in Hy.
  - intros [= -> _]. simpl in Hx. by rewrite Ascii.eqb_refl in Hx.
  - simpl in Hx, Hy. apply orb_false_iff in Hx as [_ Hx], Hy as [_ Hy].
    intros [= -> H]. destruct (IH y Hx Hy H) as [-> ->]. done.
Qed.

Lemma py_join_inj c l1 l2 :
  length l1 = length l2 ->
  Forall (fun s => has_char c s = false) l1 ->
  Forall (fun s => has_char c s = false) l2 ->
  py_join (String c EmptyString) l1 = py_join (String c EmptyString) l2 -> l1 = l2.
Proof.
  revert l2. induction l1 as [|x [|x' l1] IH]; intros [|y [|y' l2]] Hlen H1 H2;
    simpl in Hlen; try lia; simpl; [done|intros ->; done|].
  apply Forall_cons in H1 as [Hx H1], H2 as [Hy H2].
  intros Heq. apply app_sep_inj in Heq as [-> Heq]; [|done|done].
  f_equal. apply IH; simpl; auto.
Qed.

(** [collapse_multi_index_cols] keeps the columns' data and order, and
    joining with a one-character separator keeps distinct columns apart:
    if no label component, as a string, contains the separator, labels whose
    strings differ stay different after the collapse. *)
Theorem collapse_multi_index_cols_distinct {C} names (cols : list (list pyval * C)) c :
  (forall col, col ∈ cols -> length col.1 = length names) ->
  (forall col v, col ∈ cols -> v ∈ col.1 -> has_char c (py_str v) = false) ->
  NoDup ((fun col : list pyval * C => py_str <$> col.1) <$> cols) ->
  exists labels,
    collapse_multi_index_cols (MultiFrame names cols) (String c EmptyString)
    = FlatFrame None (zip labels cols.*2)
    /\ length labels = length cols /\ NoDup labels.
Proof.
  intros Hlen Hc Hnd.
  exists ((fun ks => PStr (py_join (String c EmptyString) ks))
            <$> ((fun col : list pyval * C => py_str <$> col.1) <$> cols)).
  split_and!.
  - simpl. f_equal. induction cols as [|col cols IH]; [done|]. simpl. f_equal.
    apply IH.
    + intros col' Hc'. apply Hlen. set_solver.
    + intros col' v Hc' Hv. apply (Hc col'); set_solver.
    + by apply NoDup_cons in Hnd as [_ Hnd].
  - by rewrite !length_fmap.
  - apply NoDup_fmap_2_strong; [|done].
    intros ks1 ks2 H1 H2 [= Heq].
    apply list_elem_of_fmap in H1 as (col1 & -> & H1), H2 as (col2 & -> & H2).
    apply py_join_inj in Heq; [done|..].
    + rewrite !length_fmap, !Hlen by done. done.
    + apply Forall_forall. intros s Hs. apply list_elem_of_fmap in Hs as (v & -> & Hv).
      by apply (Hc col1).
    + apply Forall_forall. intros s Hs. apply list_elem_of_fmap in Hs as (v & -> & Hv).
      by apply (Hc col2).
Qed.

Lemma filter_all_in {A} (P : A -> Prop) `{!forall x, Decision (P x)} (l : list A) :
  (forall x, x ∈ l -> P x) -> filter P l = l.
Proof.
  induction l as [|x l IH]; intros Hall; [done|]. rewrite filter_cons.
  rewrite decide_True by (apply Hall; set_solver). f_equal. apply IH. set_solver.
Qed.

Lemma filter_none_in {A} (P : A -> Prop) `{!forall x, Decision (P x)} (l : list A) :
  (forall x, x ∈ l -> ~ P x) -> filter P l = [].
Proof.
  induction l as [|x l IH]; intros Hn; [done|]. rewrite filter_cons.
  rewrite decide_False by (apply Hn; set_solver). apply IH. set_solver.
Qed.

Lemma filter_nil_iff {A} (P : A -> Prop) `{!forall x, Decision (P x)} (l : list A) :
  filter P l = [] <-> forall x, x ∈ l -> ~ P x.
Proof.
  split; [|apply filter_none_in].
  intros Hf x Hx HP. by apply (filter_nil_not_elem_of P l x Hf HP).
Qed.

Lemma pres_map_length {A B} (f : A -> pres B) l ys :
  pres_map f l = POk ys -> length ys = length l.
Proof.
  revert ys. induction l as [|x l IH]; intros ys; simpl; [by intros [= <-]|].
  destruct (f x); [|done]. destruct (pres_map f l) as [ys'|]; [|done].
  intros [= <-]. simpl. by rewrite (IH ys').
Qed.

Lemma pres_map_err {A B} (f : A -> pres B) l e :
  pres_map f l = PErr e -> exists x, x ∈ l /\ f x = PErr e.
Proof.
  induction l as [|x l IH]; simpl; [done|].
  destruct (f x) eqn:Ef; [|intros [= <-]; exists x; split; [set_solver|done]].
  destruct (pres_map f l); [done|]. intros H. destruct (IH H) as (y & Hy & Hfy).
  exists y. split; [set_solver|done].
Qed.

Lemma get_level_number_member_err names l e :
  l ∈ names -> get_level_number names l = PErr e -> e = ValueError.
Proof.
  intros Hl. unfold get_level_number. case_bool_decide; [by intros [= <-]|].
  destruct (list_find_elem_of (fun n => n = l) names l Hl eq_refl) as [[i x] ->].
  done.
Qed.

Lemma pres_map_get_level_nodup names l :
  NoDup names -> (forall x, x ∈ l -> x ∈ names) ->
  exists levnums, pres_map (get_level_number names) l = POk levnums
    /\ length levnums = length l
    /\ forall j, j ∈ levnums <-> exists n, names !! j = Some n /\ n ∈ l.
Proof.
  intros Hnd. induction l as [|x l IH]; intros Hsub.
  - exists []. split_and!; [done|done|]. intros j. split; [set_solver|].
    intros (n & _ & Hn). set_solver.
  - destruct IH as (levnums & Hm & Hlen & Hmem); [intros y Hy; apply Hsub; set_solver|].
    destruct (list_elem_of_lookup_1 names x) as [i Hi]; [apply Hsub; set_solver|].
    exists (i :: levnums). simpl. rewrite (get_level_number_nodup names i x Hnd Hi), Hm.
    split_and!; [done|simpl; lia|]. intros j. rewrite elem_of_cons, Hmem. split.
    + intros [->|(n & Hn & Hnl)]; [exists x; split; [done|set_solver]|].
      exists n. split; [done|set_solver].
    + intros (n & Hn & Hnl). apply elem_of_cons in Hnl as [->|Hnl].
      * left. eapply NoDup_lookup; eauto.
      * right. eauto.
Qed.

(** [keep_levels] depends only on which level names are asked for, not on
    their order or repetitions in [levels_to_keep]. *)
Theorem keep_levels_same_levels {C} (df : frame C) l1 l2 :
  (forall x, x ∈ l1 <-> x ∈ l2) ->
  keep_levels df (LevelMany l1) = keep_levels df (LevelMany l2).
Proof.
  intros Hiff. destruct df as [names cols|]; [|done]. unfold keep_levels.
  assert (bool_decide (filter (fun l => l ∉ names) l1 <> [])
          = bool_decide (filter (fun l => l ∉ names) l2 <> [])) as ->.
  { apply bool_decide_ext. rewrite !filter_nil_iff.
    split; intros Hn Hall; apply Hn; intros x Hx; apply Hall, Hiff; done. }
  rewrite (list_filter_iff (fun l => l ∉ l1) (fun l => l ∉ l2)); [done|].
  intros x. by rewrite Hiff.
Qed.

(** [keep_levels(df, [])] always raises [ValueError]: every level would be
    dropped (or a level name is ambiguous). *)
Theorem keep_levels_nothing_kept {C} (df : frame C) :
  keep_levels df (LevelMany []) = PErr ValueError.
Proof.
  destruct df as [names cols|]; [|done]. unfold keep_levels. simpl.
  rewrite (filter_all_in (fun l => l ∉ []) names) by set_solver.
  unfold droplevel.
  destruct (pres_map (get_level_number names) names) as [levnums|e] eqn:E.
  - apply pres_map_length in E. by rewrite bool_decide_true by lia.
  - destruct (pres_map_err _ _ _ E) as (x & Hx & Hex).
    by rewrite (get_level_number_member_err names x e Hx Hex).
Qed.

(** With distinct level names all known to the frame, [keep_levels] keeps
    the asked-for levels in the frame's own order, labels cut down to them
    and data unchanged; one remaining level gives a flat index named after
    it, none gives [ValueError]. *)
Theorem keep_levels_spec {C} names (cols : list (list pyval * C)) keep :
  NoDup names ->
  (forall l, l ∈ keep -> l ∈ names) ->
  let kept := filter (fun i => names !! i ∈ Some <$> keep) (seq 0 (length names)) in
  keep_levels (MultiFrame names cols) (LevelMany keep)
  = match kept with
    | [] => PErr ValueError
    | [i] => POk (FlatFrame (default None (names !! i))
                    (omap (fun c => (fun v => (v, c.2)) <$> (c.1 !! i)) cols))
    | _ => POk (MultiFrame (take_positions kept names)
                  ((fun c => (take_positions kept c.1, c.2)) <$> cols))
    end.
Proof.
  intros Hnd Hsub kept. unfold keep_levels.
  rewrite bool_decide_false
    by (intros Hne; apply Hne, filter_none_in; intros x Hx Hnx;
        by apply Hnx, Hsub).
  unfold droplevel.
  destruct (pres_map_get_level_nodup names (filter (fun l => l ∉ keep) names))
    as (levnums & -> & Hlen & Hmem); [done|intros x Hx; apply list_elem_of_filter in Hx; tauto|].
  assert (filter (fun i => i ∉ levnums) (seq 0 (length names)) = kept) as ->.
  { apply filter_ext_in. intros i Hi. apply elem_of_seq in Hi.
    destruct (lookup_lt_is_Some_2 names i) as [n Hn]; [lia|]. rewrite Hmem, Hn. split.
    - intros Hno. apply list_elem_of_fmap. exists n. split; [done|].
      destruct (decide (n ∈ keep)) as [|Hnk]; [done|]. exfalso. apply Hno.
      exists n. split; [done|]. apply list_elem_of_filter. split; [done|].
      by eapply list_elem_of_lookup_2.
    - intros Hin (n' & Hn' & Hf). injection Hn' as <-.
      apply list_elem_of_filter in Hf as [Hnk _].
      apply list_elem_of_fmap in Hin as (n'' & [= <-] & Hk). contradiction. }
  destruct (decide (Exists (fun n => n ∈ keep) names)) as [Hex|Hnone].
  - apply Exists_exists in Hex as (n & Hn & Hk). rewrite bool_decide_false.
    + destruct (list_elem_of_lookup_1 names n Hn) as [i Hi].
      assert (i ∈ kept) as Hik.
      { apply list_elem_of_filter. split.
        - rewrite Hi. apply list_elem_of_fmap. eauto.
        - apply elem_of_seq. apply lookup_lt_Some in Hi. lia. }
      destruct kept as [|i0 [|i1 l]]; [set_solver|done|done].
    + rewrite Hlen. pose proof (length_filter_lt (fun l => l ∉ keep) names n Hn).
      enough (length (filter (fun l => l ∉ keep) names) < length names) by lia.
      apply length_filter_lt with n; [done|]. tauto.
  - rewrite (filter_all_in (fun l => l ∉ keep) names) in Hlen
      by (intros x Hx Hk; apply Hnone, Exists_exists; eauto).
    rewrite bool_decide_true by lia.
    assert (kept = []) as ->; [|done].
    apply filter_none_in. intros i Hi Hin.
    apply list_elem_of_fmap in Hin as (n & Hn & Hk). apply Hnone, Exists_exists.
    exists n. split; [|done]. by eapply list_elem_of_lookup_2.
Qed.

Section DateProofs.
Local Open Scope Z_scope.


(** Replacing the year back undoes a successful [_safe_replace_year]. *)
Theorem safe_replace_year_round_trip d y d' :
  valid_date d = true ->
  _safe_replace_year d y = POk (Some d') ->
  _safe_replace_year d' (year d) = POk (Some d).
Proof.
  intros Hd. unfold _safe_replace_year, date_replace_year.
  destruct ((y <? - 2 ^ 31) || (2 ^ 31 - 1 <? y)); [done|].
  destruct (valid_date (mk_date y (month d) (day d))); [|done].
  intros [= <-]. cbn [month day]. destruct d as [yr m dd]. simpl in *.
  assert (Hyr : 1 <= yr <= 9999).
  { unfold valid_date in Hd. simpl in Hd. rewrite !andb_true_iff, !Z.leb_le in Hd. lia. }
  replace ((yr <? - 2 ^ 31) || (2 ^ 31 - 1 <? yr)) with false
    by (symmetry; apply orb_false_iff; split; apply Z.ltb_ge; lia).
  by rewrite Hd.
Qed.

End DateProofs.

Section PlotProofs.
Local Open Scope Z_scope.

Lemma py_range_elem a b x : x ∈ py_range a b <-> a <= x < b.
Proof.
  unfold py_range. rewrite list_elem_of_fmap. split.
  - intros (n & -> & Hn). apply elem_of_seq in Hn. lia.
  - intros Hx. exists (Z.to_nat (x - a)). split; [lia|]. apply elem_of_seq. lia.
Qed.

Lemma month_starts_elem y0 m0 y1 m1 y m :
  1 <= m <= 12 ->
  (y, m) ∈ month_starts y0 m0 y1 m1
  <-> 12 * y0 + m0 <= 12 * y + m <= 12 * y1 + m1.
Proof.
  intros Hm. unfold month_starts. rewrite list_elem_of_fmap. split.
  - intros (i & Heq & Hi). apply py_range_elem in Hi. injection Heq as Hy Hm'.
    pose proof (Z.div_mod i 12 ltac:(lia)). pose proof (Z.mod_pos_bound i 12 ltac:(lia)).
    lia.
  - intros Hr. exists (12 * y + (m - 1)). split.
    + f_equal.
      * apply Z.div_unique with (m - 1); lia.
      * assert ((12 * y + (m - 1)) `mod` 12 = m - 1) as ->
          by (symmetry; apply Z.mod_unique with y; lia). lia.
    + apply py_range_elem. lia.
Qed.

Lemma month_starts_month y0 m0 y1 m1 ym :
  ym ∈ month_starts y0 m0 y1 m1 -> 1 <= ym.2 <= 12.
Proof.
  unfold month_starts. rewrite list_elem_of_fmap. intros (i & -> & _). simpl.
  pose proof (Z.mod_pos_bound i 12 ltac:(lia)). lia.
Qed.

(** With [add_monthly_v_line] an [int] [m], the figure gets a dotted line at
    each month start of the data span whose month is at least [m], in order,
    then the line for today if asked; [m = 0] is false in Python and gives no
    monthly line at all, though [range(0, 13)] would cover every month. *)
Theorem plot_vlines_int m today y0 m0 y1 m1 :
  plot_vlines (VInt m) today y0 m0 y1 m1
  = (if m =? 0 then []
     else (fun ym => MonthLine ym.1 ym.2)
            <$> filter (fun ym => m <= ym.2) (month_starts y0 m0 y1 m1))
    ++ (if today then [TodayLine] else []).
Proof.
  unfold plot_vlines, vline_truthy. destruct (m =? 0); simpl; [done|].
  f_equal. f_equal. apply filter_ext_in. intros ym Hym.
  pose proof (month_starts_month _ _ _ _ _ Hym). cbn [v_lines].
  rewrite py_range_elem. lia.
Qed.

(** With [add_monthly_v_line] an [int] [m], a month [(y, mm)] gets a dotted
    line exactly when [m] is not [0], [mm >= m] and the month lies between
    the months of the first and the last day of the data. *)
Theorem plot_vlines_int_elem m today y0 m0 y1 m1 y mm :
  1 <= mm <= 12 ->
  MonthLine y mm ∈ plot_vlines (VInt m) today y0 m0 y1 m1
  <-> m <> 0 /\ m <= mm /\ 12 * y0 + m0 <= 12 * y + mm <= 12 * y1 + m1.
Proof.
  intros Hmm. rewrite plot_vlines_int, elem_of_app.
  assert (MonthLine y mm ∉ (if today then [TodayLine] else [])) as Ht
    by (destruct today; set_solver).
  destruct (Z.eqb_spec m 0) as [->|Hm0].
  - split; [intros [H|H]; [set_solver|done]|lia].
  - rewrite list_elem_of_fmap. split.
    + intros [([y' mm'] & [= -> ->] & Hin)|H]; [|done].
      apply list_elem_of_filter in Hin as [Hle Hin]. simpl in Hle.
      apply month_starts_elem in Hin; [|done]. lia.
    + intros (_ & Hle & Hr). left. exists (y, mm). split; [done|].
      apply list_elem_of_filter. split; [done|]. by apply month_starts_elem.
Qed.

End PlotProofs.

(* ================================================================== *)
(** ** Runs of the further properties on concrete inputs *)

(** A decidable proposition about concrete values, settled by evaluation. *)
Ltac decide_concrete := apply (bool_decide_unpack _); vm_compute; exact I.

Lemma upload_files_batch_true_iff_witness :
  ac_rev 2 (collect_files fs0 ["src"] "out") ≡ₚ collect_files fs0 ["src"] "out"
  /\ (fst (upload_files_batch up_b_refused rm_never ac_rev fs0 "bk" ["src"] "out" 2 true)
        = Ret true
      <-> isdir fs0 ["src"] = true /\ collect_files fs0 ["src"] "out" <> []
          /\ (1 <= 2)%Z
          /\ forall t, t ∈ collect_files fs0 ["src"] "out" ->
                       upload_file up_b_refused "bk" (t_local t) (t_remote t) = Ret true).
Proof.
  assert (Hp : ac_rev 2 (collect_files fs0 ["src"] "out") ≡ₚ collect_files fs0 ["src"] "out")
    by (unfold ac_rev; symmetry; apply Permutation_rev).
  split; [exact Hp|].
  exact (upload_files_batch_true_iff up_b_refused rm_never ac_rev fs0 "bk" ["src"] "out"
           2 true Hp).
Defined.

Lemma upload_files_batch_frame_witness :
  ac_rev 2 (collect_files fs0 ["src"] "out") ≡ₚ collect_files fs0 ["src"] "out"
  /\ (["src"; "sub"] ∉ (t_local <$> collect_files fs0 ["src"] "out"))
  /\ bs_fs (snd (upload_files_batch up_ok rm_never ac_rev fs0 "bk" ["src"] "out" 2 true))
       !! ["src"; "sub"] = fs0 !! ["src"; "sub"].
Proof.
  assert (Hp : ac_rev 2 (collect_files fs0 ["src"] "out") ≡ₚ collect_files fs0 ["src"] "out")
    by (unfold ac_rev; symmetry; apply Permutation_rev).
  assert (Hn : ["src"; "sub"] ∉ (t_local <$> collect_files fs0 ["src"] "out"))
    by decide_concrete.
  split_and!; [exact Hp|exact Hn|].
  exact (upload_files_batch_frame up_ok rm_never ac_rev fs0 "bk" ["src"] "out" 2 true Hp
           _ Hn).
Defined.

Lemma upload_files_batch_deletes_only_uploaded_witness :
  ac_rev 2 (collect_files fs0 ["src"] "out") ≡ₚ collect_files fs0 ["src"] "out"
  /\ EvDeleted ["src"; "a.txt"]
       ∈ bs_trace (snd (upload_files_batch up_ok rm_never ac_rev fs0 "bk" ["src"] "out"
                          2 true))
  /\ deletion_path (EvDeleted ["src"; "a.txt"]) = Some ["src"; "a.txt"]
  /\ true = true
  /\ exists t, t ∈ collect_files fs0 ["src"] "out" /\ ["src"; "a.txt"] = t_local t
               /\ upload_file up_ok "bk" (t_local t) (t_remote t) = Ret true.
Proof.
  assert (Hp : ac_rev 2 (collect_files fs0 ["src"] "out") ≡ₚ collect_files fs0 ["src"] "out")
    by (unfold ac_rev; symmetry; apply Permutation_rev).
  assert (Hin : EvDeleted ["src"; "a.txt"]
                ∈ bs_trace (snd (upload_files_batch up_ok rm_never ac_rev fs0 "bk" ["src"]
                                   "out" 2 true)))
    by (apply (list_elem_of_lookup_2 _ 3); vm_compute; reflexivity).
  split; [exact Hp|]. split; [exact Hin|]. split; [reflexivity|].
  exact (upload_files_batch_deletes_only_uploaded up_ok rm_never ac_rev fs0 "bk" ["src"]
           "out" 2 true Hp _ _ Hin eq_refl).
Defined.

Lemma collect_files_remote_no_backslash_witness :
  mk_task ["src"; "a.txt"] "win/dir/a.txt" ∈ collect_files fs0 ["src"] "win\dir"
  /\ has_char (ascii_of_nat 92) (t_remote (mk_task ["src"; "a.txt"] "win/dir/a.txt"))
     = false.
Proof.
  assert (Hin : mk_task ["src"; "a.txt"] "win/dir/a.txt" ∈ collect_files fs0 ["src"] "win\dir")
    by (apply (list_elem_of_lookup_2 _ 1); vm_compute; reflexivity).
  split; [exact Hin|].
  exact (collect_files_remote_no_backslash fs0 ["src"] "win\dir" _ Hin).
Defined.

Lemma collect_files_remote_distinct_witness :
  (forall n, n ∈ listdir fs0 ["src"] -> has_char "/"%char n = false)
  /\ NoDup (t_remote <$> collect_files fs0 ["src"] "win\dir").
Proof.
  assert (Hn : forall n, n ∈ listdir fs0 ["src"] -> has_char "/"%char n = false).
  { apply Forall_forall. vm_compute. repeat constructor. }
  split; [exact Hn|]. exact (collect_files_remote_distinct fs0 ["src"] "win\dir" Hn).
Defined.

Lemma download_file_temp_frame_witness :
  mk_tmp0 fs0 = Ret tmp0 /\ ["src"; "a.txt"] <> tmp0
  /\ fst (download_file_temp dl_ok rm_never mk_tmp0 fs0 "bk" "data.csv" body_read)
       !! ["src"; "a.txt"]
     = fst (body_read tmp0 (<[tmp0 := File]> fs0)) !! ["src"; "a.txt"].
Proof.
  assert (Hne : ["src"; "a.txt"] <> tmp0) by (unfold tmp0; congruence).
  split_and!; [reflexivity|exact Hne|].
  exact (download_file_temp_frame dl_ok rm_never mk_tmp0 fs0 "bk" "data.csv" body_read tmp0
           eq_refl _ Hne).
Defined.

Lemma index_slice_one_level_witness :
  [None; Some "field"; None] !! 1%nat = Some (Some "field")
  /\ (forall j, [None; Some "field"; None] !! j = Some (Some "field") -> j = 1%nat)
  /\ index_slice (MultiFrame [None; Some "field"; None] cols0)
       [("field", KwMany [PStr "volume"; PStr "price"])]
     = POk (MultiFrame [None; Some "field"; None]
              [([PStr "PT"; PStr "volume"; PInt 2024], 1%nat);
               ([PStr "FR"; PStr "volume"; PInt 2024], 3%nat);
               ([PStr "PT"; PStr "price"; PInt 2024], 0%nat);
               ([PStr "ES"; PStr "price"; PInt 2023], 2%nat)])
  /\ names0 !! 1%nat = Some (Some "field")
  /\ index_slice df0 [("field", KwMany [PStr "volume"; PStr "price"])]
     = POk (MultiFrame names0
              [([PStr "PT"; PStr "volume"; PInt 2024], 1%nat);
               ([PStr "FR"; PStr "volume"; PInt 2024], 3%nat);
               ([PStr "PT"; PStr "price"; PInt 2024], 0%nat);
               ([PStr "ES"; PStr "price"; PInt 2023], 2%nat)]).
Proof.
  assert (Hu : forall j, [None; Some "field"; None] !! j = Some (Some "field") -> j = 1%nat)
    by (intros [|[|[|j]]] Hj; cbv in Hj; congruence).
  assert (Hu0 : forall j, names0 !! j = Some (Some "field") -> j = 1%nat)
    by (intros [|[|[|j]]] Hj; cbv in Hj; congruence).
  split_and!; [reflexivity|exact Hu| |reflexivity|].
  - rewrite (index_slice_one_level [None; Some "field"; None] cols0 "field" 1 _ eq_refl Hu).
    vm_compute. reflexivity.
  - rewrite (index_slice_one_level names0 cols0 "field" 1 _ eq_refl Hu0).
    vm_compute. reflexivity.
Defined.

Lemma index_slice_missing_level_witness :
  (Some "month" ∉ names0)
  /\ index_slice df0 [("month", KwOne (PInt 1)); ("field", KwOne (PStr "price"))]
     = POk empty_frame.
Proof.
  assert (Hn : Some "month" ∉ names0) by decide_concrete.
  split; [exact Hn|]. exact (index_slice_missing_level names0 cols0 _ _ _ Hn).
Defined.

Lemma index_slice_subframe_witness :
  index_slice df0 [("field", KwMany [PStr "volume"; PStr "price"]); ("year", KwOne (PInt 2024))]
  = POk (MultiFrame names0
           [([PStr "PT"; PStr "volume"; PInt 2024], 1%nat);
            ([PStr "FR"; PStr "volume"; PInt 2024], 3%nat);
            ([PStr "PT"; PStr "price"; PInt 2024], 0%nat)])
  /\ (MultiFrame names0
        [([PStr "PT"; PStr "volume"; PInt 2024], 1%nat);
         ([PStr "FR"; PStr "volume"; PInt 2024], 3%nat);
         ([PStr "PT"; PStr "price"; PInt 2024], 0%nat)] = empty_frame
      \/ exists cols', MultiFrame names0
                         [([PStr "PT"; PStr "volume"; PInt 2024], 1%nat);
                          ([PStr "FR"; PStr "volume"; PInt 2024], 3%nat);
                          ([PStr "PT"; PStr "price"; PInt 2024], 0%nat)]
                       = MultiFrame names0 cols'
                       /\ forall c, c ∈ cols' -> c ∈ cols0).
Proof.
  assert (H : index_slice df0 [("field", KwMany [PStr "volume"; PStr "price"]);
                               ("year", KwOne (PInt 2024))]
              = POk (MultiFrame names0
                       [([PStr "PT"; PStr "volume"; PInt 2024], 1%nat);
                        ([PStr "FR"; PStr "volume"; PInt 2024], 3%nat);
                        ([PStr "PT"; PStr "price"; PInt 2024], 0%nat)]))
    by (vm_compute; reflexivity).
  split; [exact H|]. exact (index_slice_subframe names0 cols0 _ _ H).
Defined.

Lemma index_slice_all_conditions_witness :
  [("country", 0%nat, PStr "PT"); ("year", 2%nat, PInt 2024)] <> []
  /\ Forall (fun cd => names0 !! cd.1.2 = Some (Some cd.1.1)
                       /\ forall j, names0 !! j = Some (Some cd.1.1) -> j = cd.1.2)
       [("country", 0%nat, PStr "PT"); ("year", 2%nat, PInt 2024)]
  /\ index_slice df0 [("country", KwOne (PStr "PT")); ("year", KwOne (PInt 2024))]
     = POk (MultiFrame names0
              [([PStr "PT"; PStr "price"; PInt 2024], 0%nat);
               ([PStr "PT"; PStr "volume"; PInt 2024], 1%nat)]).
Proof.
  assert (Hf : Forall (fun cd => names0 !! cd.1.2 = Some (Some cd.1.1)
                                 /\ forall j, names0 !! j = Some (Some cd.1.1) -> j = cd.1.2)
                 [("country", 0%nat, PStr "PT"); ("year", 2%nat, PInt 2024)]).
  { repeat constructor; simpl; intros [|[|[|j]]] Hj; cbv in Hj; congruence. }
  split_and!; [discriminate|exact Hf|].
  pose proof (index_slice_all_conditions names0 cols0
                [("country", 0%nat, PStr "PT"); ("year", 2%nat, PInt 2024)]
                ltac:(discriminate) Hf) as H.
  simpl in H. unfold df0. rewrite H. vm_compute. reflexivity.
Defined.

Lemma collapse_multi_index_cols_distinct_witness :
  (forall col, col ∈ cols0 -> length col.1 = length names0)
  /\ (forall col v, col ∈ cols0 -> v ∈ col.1 -> has_char "_"%char (py_str v) = false)
  /\ NoDup ((fun col : list pyval * nat => py_str <$> col.1) <$> cols0)
  /\ exists labels,
       collapse_multi_index_cols df0 "_" = FlatFrame None (zip labels cols0.*2)
       /\ length labels = length cols0 /\ NoDup labels.
Proof.
  assert (Hl : forall col, col ∈ cols0 -> length col.1 = length names0).
  { apply Forall_forall. vm_compute. repeat constructor. }
  assert (Hc : forall col v, col ∈ cols0 -> v ∈ col.1 -> has_char "_"%char (py_str v) = false).
  { intros col v Hcol. revert v. apply Forall_forall. revert col Hcol.
    apply Forall_forall. vm_compute. repeat constructor. }
  assert (Hnd : NoDup ((fun col : list pyval * nat => py_str <$> col.1) <$> cols0))
    by decide_concrete.
  split_and!; [exact Hl|exact Hc|exact Hnd|].
  exact (collapse_multi_index_cols_distinct names0 cols0 "_"%char Hl Hc Hnd).
Defined.

Lemma keep_levels_same_levels_witness :
  (forall x, x ∈ [Some "field"; Some "country"]
             <-> x ∈ [Some "country"; Some "field"; Some "country"])
  /\ keep_levels df0 (LevelMany [Some "field"; Some "country"])
     = keep_levels df0 (LevelMany [Some "country"; Some "field"; Some "country"]).
Proof.
  assert (H : forall x, x ∈ [Some "field"; Some "country"]
                        <-> x ∈ [Some "country"; Some "field"; Some "country"])
    by (intros x; set_solver).
  split; [exact H|]. exact (keep_levels_same_levels df0 _ _ H).
Defined.

Lemma keep_levels_spec_witness :
  NoDup names0
  /\ (forall l, l ∈ [Some "year"; Some "country"] -> l ∈ names0)
  /\ keep_levels df0 (LevelMany [Some "year"; Some "country"])
     = POk (MultiFrame [Some "country"; Some "year"]
              [([PStr "PT"; PInt 2024], 0%nat); ([PStr "PT"; PInt 2024], 1%nat);
               ([PStr "ES"; PInt 2023], 2%nat); ([PStr "FR"; PInt 2024], 3%nat)]).
Proof.
  assert (Hnd : NoDup names0) by decide_concrete.
  assert (Hs : forall l, l ∈ [Some "year"; Some "country"] -> l ∈ names0)
    by (unfold names0; set_solver).
  split_and!; [exact Hnd|exact Hs|].
  unfold df0. rewrite (keep_levels_spec names0 cols0 _ Hnd Hs). vm_compute. reflexivity.
Defined.


Lemma safe_replace_year_round_trip_witness :
  valid_date (mk_date 2024 3 31) = true
  /\ _safe_replace_year (mk_date 2024 3 31) 2019 = POk (Some (mk_date 2019 3 31))
  /\ _safe_replace_year (mk_date 2019 3 31) 2024 = POk (Some (mk_date 2024 3 31)).
Proof.
  split_and!; [reflexivity|reflexivity|].
  exact (safe_replace_year_round_trip (mk_date 2024 3 31) 2019 _ eq_refl eq_refl).
Defined.

Lemma plot_vlines_int_elem_witness :
  (1 <= 11 <= 12)%Z
  /\ (MonthLine 2024 11 ∈ plot_vlines (VInt 10) true 2023 11 2025 1
      <-> 10 <> 0 /\ 10 <= 11 /\ 12 * 2023 + 11 <= 12 * 2024 + 11 <= 12 * 2025 + 1)%Z.
Proof.
  split; [lia|]. apply plot_vlines_int_elem. lia.
Defined.
